(** * TOTP manager: a shallow embedding of [totp_manager.py]

    The development follows the Python source from the leaves up:

    - the library code reached through [pyotp.TOTP(secret).now()]
      (Base32 decoding, SHA-1, HMAC, dynamic truncation), written out at
      byte level;
    - the table [totp_secrets] as a list of rows, with the statements the
      source sends to SQLite ([INSERT], [UPDATE], [DELETE],
      [SELECT ... LIKE ... ORDER BY]);
    - the methods of [TOTPManager] and the [get] branch of [main].

    Strings are [string] (sequences of 8-bit characters); the embedding is
    exact on ASCII text.  Bytes and machine words are [Z] with the masks
    written out.  Python exceptions are values of [exn], carried by
    [result]. *)

From Stdlib Require Import ZArith List Bool Ascii String Lia Permutation Sorted.
Import ListNotations.

Local Open Scope string_scope.
Local Open Scope list_scope.
Local Open Scope Z_scope.

(** ** Exceptions and results *)

(** The exceptions the modelled code can raise. *)
Inductive exn : Type :=
| ValueError_not_ascii      (* base64: string argument should contain only ASCII characters *)
| BinasciiError_padding     (* binascii.Error: Incorrect padding *)
| BinasciiError_digit       (* binascii.Error: Non-base32 digit found *)
| ValueError_negative       (* pyotp: input must be positive integer *)
| IndexError                (* index out of range *)
| IntegrityError            (* sqlite3.IntegrityError: UNIQUE constraint failed *)
| TypeError                 (* len() of None *)
| EOFError.                 (* input() at end of file *)

(** [isinstance(e, ValueError)]; [binascii.Error] is a subclass of
    [ValueError]. *)
Definition is_value_error (e : exn) : bool :=
  match e with
  | ValueError_not_ascii | BinasciiError_padding | BinasciiError_digit
  | ValueError_negative => true
  | _ => false
  end.

Inductive result (A : Type) : Type :=
| Ok (a : A)
| Raise (e : exn).

Arguments Ok {A} a.
Arguments Raise {A} e.

Definition bind {A B : Type} (r : result A) (k : A -> result B) : result B :=
  match r with
  | Ok a => k a
  | Raise e => Raise e
  end.

Notation "x <- r ;; k" := (bind r (fun x => k))
  (at level 61, r at next level, right associativity).

(** ** Characters and strings *)

Definition ord (c : ascii) : Z := Z.of_N (N_of_ascii c).

Definition chr (z : Z) : ascii := ascii_of_N (Z.to_N z).

Definition is_lower (c : ascii) : bool := (97 <=? ord c) && (ord c <=? 122).

Definition is_upper (c : ascii) : bool := (65 <=? ord c) && (ord c <=? 90).

(** [str.upper] / [bytes.upper] on one ASCII character. *)
Definition upper_char (c : ascii) : ascii :=
  if is_lower c then chr (ord c - 32) else c.

(** ASCII case folding used by SQLite's [LIKE]. *)
Definition lower_char (c : ascii) : ascii :=
  if is_upper c then chr (ord c + 32) else c.

Fixpoint map_string (f : ascii -> ascii) (s : string) : string :=
  match s with
  | EmptyString => EmptyString
  | String c s' => String (f c) (map_string f s')
  end.

Fixpoint filter_string (p : ascii -> bool) (s : string) : string :=
  match s with
  | EmptyString => EmptyString
  | String c s' => if p c then String c (filter_string p s') else filter_string p s'
  end.

Fixpoint forall_string (p : ascii -> bool) (s : string) : bool :=
  match s with
  | EmptyString => true
  | String c s' => p c && forall_string p s'
  end.

Fixpoint rev_string_onto (s acc : string) : string :=
  match s with
  | EmptyString => acc
  | String c s' => rev_string_onto s' (String c acc)
  end.

Definition rev_string (s : string) : string := rev_string_onto s EmptyString.

Fixpoint repeat_char (c : ascii) (n : nat) : string :=
  match n with
  | O => EmptyString
  | S n' => String c (repeat_char c n')
  end.

Fixpoint drop_string (n : nat) (s : string) : string :=
  match n, s with
  | O, _ => s
  | S n', String _ s' => drop_string n' s'
  | S _, EmptyString => EmptyString
  end.

(** [s.upper()] *)
Definition upper (s : string) : string := map_string upper_char s.

(** [s.replace(old, '')] for a one-character [old]. *)
Definition remove_char (old : ascii) (s : string) : string :=
  filter_string (fun c => negb (Ascii.eqb c old)) s.

(** [s.rstrip('=')]: drop the trailing run of [c]. *)
Fixpoint lstrip_char (c : ascii) (s : string) : string :=
  match s with
  | EmptyString => EmptyString
  | String d s' => if Ascii.eqb d c then lstrip_char c s' else s
  end.

Definition rstrip_char (c : ascii) (s : string) : string :=
  rev_string (lstrip_char c (rev_string s)).

Definition len (s : string) : Z := Z.of_nat (String.length s).

(** ** SHA-1 ([hashlib.sha1], FIPS 180-4) *)

Module SHA1.

Definition mask32 (x : Z) : Z := Z.land x 4294967295.

Definition add32 (x y : Z) : Z := mask32 (x + y).

Definition rotl (n x : Z) : Z :=
  mask32 (Z.lor (Z.shiftl x n) (Z.shiftr x (32 - n))).

Definition not32 (x : Z) : Z := Z.lxor x 4294967295.

(** Big-endian bytes of a [k]-byte unsigned integer. *)
Fixpoint be_bytes (k : nat) (x : Z) : list Z :=
  match k with
  | O => []
  | S k' => Z.land (Z.shiftr x (8 * Z.of_nat k')) 255 :: be_bytes k' x
  end.

Definition be_value (bs : list Z) : Z :=
  fold_left (fun acc b => Z.lor (Z.shiftl acc 8) b) bs 0.

(** Message padding: 0x80, zeros up to 56 mod 64, then the bit length on
    eight bytes. *)
Definition pad (msg : list Z) : list Z :=
  let n := Z.of_nat (List.length msg) in
  let zeros := Z.to_nat ((55 - n) mod 64) in
  msg ++ 128 :: repeat 0 zeros ++ be_bytes 8 (8 * n).

Fixpoint words (n : nat) (bs : list Z) : list Z :=
  match n with
  | O => []
  | S n' => be_value (firstn 4 bs) :: words n' (skipn 4 bs)
  end.

Fixpoint blocks (n : nat) (bs : list Z) : list (list Z) :=
  match n with
  | O => []
  | S n' => words 16 (firstn 64 bs) :: blocks n' (skipn 64 bs)
  end.

Record state : Type := mkstate { ha : Z; hb : Z; hc : Z; hd : Z; he : Z }.

Definition init : state :=
  mkstate 1732584193 4023233417 2562383102 271733878 3285377520.

Definition f (t : Z) (b c d : Z) : Z :=
  if t <? 20 then Z.lor (Z.land b c) (Z.land (not32 b) d)
  else if t <? 40 then Z.lxor (Z.lxor b c) d
  else if t <? 60 then Z.lor (Z.lor (Z.land b c) (Z.land b d)) (Z.land c d)
  else Z.lxor (Z.lxor b c) d.

Definition k (t : Z) : Z :=
  if t <? 20 then 1518500249
  else if t <? 40 then 1859775393
  else if t <? 60 then 2400959708
  else 3395469782.

(** The message schedule is kept as a window of sixteen words:
    [w(t+16) = rotl 1 (w(t+13) xor w(t+8) xor w(t+2) xor w(t))]. *)
Definition next_word (win : list Z) : Z :=
  rotl 1 (Z.lxor (Z.lxor (Z.lxor (nth 13 win 0) (nth 8 win 0)) (nth 2 win 0))
                 (nth 0 win 0)).

Fixpoint rounds (n : nat) (t : Z) (win : list Z) (s : state) : state :=
  match n with
  | O => s
  | S n' =>
      let tmp := add32 (add32 (add32 (add32 (rotl 5 (ha s)) (f t (hb s) (hc s) (hd s)))
                                     (he s)) (k t)) (nth 0 win 0) in
      rounds n' (t + 1) (tl win ++ [next_word win])
             (mkstate tmp (ha s) (rotl 30 (hb s)) (hc s) (hd s))
  end.

Definition compress (h : state) (block : list Z) : state :=
  let s := rounds 80 0 block h in
  mkstate (add32 (ha h) (ha s)) (add32 (hb h) (hb s)) (add32 (hc h) (hc s))
          (add32 (hd h) (hd s)) (add32 (he h) (he s)).

Definition digest_of (h : state) : list Z :=
  be_bytes 4 (ha h) ++ be_bytes 4 (hb h) ++ be_bytes 4 (hc h)
    ++ be_bytes 4 (hd h) ++ be_bytes 4 (he h).

(** [hashlib.sha1(msg).digest()] *)
Definition sha1 (msg : list Z) : list Z :=
  let p := pad msg in
  digest_of (fold_left compress (blocks (List.length p / 64) p) init).

End SHA1.

(** ** HMAC ([hmac.new(key, msg, hashlib.sha1).digest()], RFC 2104) *)

Module HMAC.

Definition block_size : nat := 64.

Definition block_key (key : list Z) : list Z :=
  let k0 := if (Z.of_nat block_size <? Z.of_nat (List.length key))
            then SHA1.sha1 key else key in
  k0 ++ repeat 0 (block_size - List.length k0).

Definition xor_with (x : Z) (bs : list Z) : list Z := map (fun b => Z.lxor b x) bs.

Definition hmac_sha1 (key msg : list Z) : list Z :=
  let k0 := block_key key in
  SHA1.sha1 (xor_with 92 k0 ++ SHA1.sha1 (xor_with 54 k0 ++ msg)).

End HMAC.

(** ** Base32 ([base64.b32decode(s, casefold=True)], RFC 4648) *)

Module Base32.

(** [_b32rev]: the value of a character of the alphabet [A-Z2-7]. *)
Definition b32rev (c : ascii) : option Z :=
  let n := ord c in
  if (65 <=? n) && (n <=? 90) then Some (n - 65)
  else if (50 <=? n) && (n <=? 55) then Some (n - 24)
  else None.

Definition is_ascii_char (c : ascii) : bool := ord c <? 128.

(** The inner loop [for c in quanta: acc = (acc << 5) + b32rev[c]];
    a [KeyError] becomes [binascii.Error('Non-base32 digit found')]. *)
Fixpoint quantum_acc (quanta : string) (acc : Z) : result Z :=
  match quanta with
  | EmptyString => Ok acc
  | String c q' =>
      match b32rev c with
      | Some v => quantum_acc q' (Z.shiftl acc 5 + v)
      | None => Raise BinasciiError_digit
      end
  end.

(** The outer loop [for i in range(0, len(s), 8)], run [n] times on what is
    left of [s]; returns the bytes decoded so far and the last [acc]. *)
Fixpoint decode_quanta (n : nat) (s : string) (decoded : list Z) (acc : Z)
  : result (list Z * Z) :=
  match n with
  | O => Ok (decoded, acc)
  | S n' =>
      a <- quantum_acc (substring 0 8 s) 0 ;;
      decode_quanta n' (drop_string 8 s) (decoded ++ SHA1.be_bytes 5 a) a
  end.

Definition valid_padchars (p : Z) : bool :=
  (p =? 0) || (p =? 1) || (p =? 3) || (p =? 4) || (p =? 6).

Definition b32decode (s : string) : result (list Z) :=
  if negb (forall_string is_ascii_char s) then Raise ValueError_not_ascii
  else if negb (len s mod 8 =? 0) then Raise BinasciiError_padding
  else
    let s := upper s in
    let l := len s in
    let s := rstrip_char "=" s in
    let padchars := l - len s in
    r <- decode_quanta (Z.to_nat ((len s + 7) / 8)) s [] 0 ;;
    let '(decoded, acc) := r in
    if negb (l mod 8 =? 0) || negb (valid_padchars padchars)
    then Raise BinasciiError_padding
    else if negb (padchars =? 0) && negb (Nat.eqb (List.length decoded) 0) then
      let last := SHA1.be_bytes 5 (Z.shiftl acc (5 * padchars)) in
      let leftover := (43 - 5 * padchars) / 8 in
      Ok (firstn (List.length decoded - 5) decoded ++ firstn (Z.to_nat leftover) last)
    else Ok decoded.

End Base32.

(** ** pyotp: [OTP] and [TOTP] with the defaults the source uses
    (six digits, SHA-1, thirty seconds) *)

Module Pyotp.

Definition digits : Z := 6.

Definition interval : Z := 30.

(** [OTP.byte_secret] *)
Definition byte_secret (secret : string) : result (list Z) :=
  let missing_padding := len secret mod 8 in
  let secret :=
    if negb (missing_padding =? 0)
    then (secret ++ repeat_char "=" (Z.to_nat (8 - missing_padding)))%string
    else secret in
  Base32.b32decode secret.

(** The loop of [OTP.int_to_bytestring]:
    [while i != 0: result.append(i & 0xFF); i >>= 8]. *)
Fixpoint low_bytes (fuel : nat) (i : Z) : list Z :=
  match fuel with
  | O => []
  | S fuel' => if i =? 0 then [] else Z.land i 255 :: low_bytes fuel' (Z.shiftr i 8)
  end.

(** [bytearray.rjust(width, b'\0')] *)
Definition rjust (width : nat) (bs : list Z) : list Z :=
  repeat 0 (width - List.length bs) ++ bs.

(** [OTP.int_to_bytestring(i)] with [padding = 8], for [0 <= i]. *)
Definition int_to_bytestring (i : Z) : list Z :=
  rjust 8 (rev (low_bytes (S (Z.to_nat (Z.log2 i))) i)).

(** Python indexing [l[i]]: negative indices count from the end. *)
Definition index (l : list Z) (i : Z) : result Z :=
  let n := Z.of_nat (List.length l) in
  let j := if i <? 0 then i + n else i in
  if (0 <=? j) && (j <? n) then Ok (nth (Z.to_nat j) l 0) else Raise IndexError.

Definition digit_char (d : Z) : ascii := chr (48 + d).

(** [str(n)] for [0 <= n]: decimal digits, most significant first. *)
Fixpoint str_loop (fuel : nat) (n : Z) (acc : string) : string :=
  match fuel with
  | O => acc
  | S fuel' =>
      let acc' := String (digit_char (n mod 10)) acc in
      if n / 10 =? 0 then acc' else str_loop fuel' (n / 10) acc'
  end.

Definition str (n : Z) : string := str_loop (S (Z.to_nat (Z.log2 n))) n EmptyString.

(** The slice [s[-k:]]. *)
Definition last_chars (k : nat) (s : string) : string :=
  drop_string (String.length s - k) s.

(** The integer [code] of [OTP.generate_otp], from the digest. *)
Definition truncate (hmac_hash : list Z) : result Z :=
  last <- index hmac_hash (-1) ;;
  let offset := Z.land last 15 in
  b0 <- index hmac_hash offset ;;
  b1 <- index hmac_hash (offset + 1) ;;
  b2 <- index hmac_hash (offset + 2) ;;
  b3 <- index hmac_hash (offset + 3) ;;
  Ok (Z.lor (Z.lor (Z.lor (Z.shiftl (Z.land b0 127) 24)
                          (Z.shiftl (Z.land b1 255) 16))
                   (Z.shiftl (Z.land b2 255) 8))
            (Z.land b3 255)).

(** [OTP(secret).generate_otp(input)] *)
Definition generate_otp (secret : string) (input : Z) : result string :=
  if input <? 0 then Raise ValueError_negative
  else
    key <- byte_secret secret ;;
    let hmac_hash := HMAC.hmac_sha1 key (int_to_bytestring input) in
    code <- truncate hmac_hash ;;
    let str_code := str (10000000000 + code mod 10 ^ digits) in
    Ok (last_chars (Z.to_nat digits) str_code).

(** [TOTP.timecode]: [int(t / interval)] at the Unix time [t] of the clock
    reading; [int] rounds toward zero. *)
Definition timecode (unix_time : Z) : Z := Z.quot unix_time interval.

(** [TOTP(secret).now()] when the clock reads [unix_time]. *)
Definition now (secret : string) (unix_time : Z) : result string :=
  generate_otp secret (timecode unix_time).

End Pyotp.

(** ** The table [totp_secrets] and the SQL statements of the source *)

Module Sql.

(** One row of
    [totp_secrets(id, email UNIQUE NOT NULL, secret, created_at, updated_at)];
    the timestamps are Unix times. *)
Record row : Type := mkrow {
  row_id : Z;
  row_email : string;
  row_secret : string;
  created_at : Z;
  updated_at : Z
}.

(** The database file: the rows in insertion order and the AUTOINCREMENT
    counter of the table (the largest id ever handed out). *)
Record db : Type := mkdb {
  rows : list row;
  seq : Z
}.

Definition empty : db := mkdb [] 0.

Definition has_email (email : string) (r : row) : bool :=
  String.eqb (row_email r) email.

(** [INSERT INTO totp_secrets (email, secret) VALUES (?, ?)]: the UNIQUE
    constraint on [email] (BINARY collation) rejects a second row with the
    same email. *)
Definition insert (d : db) (email secret : string) (clock : Z) : result db :=
  if existsb (has_email email) (rows d) then Raise IntegrityError
  else
    let id := seq d + 1 in
    Ok (mkdb (rows d ++ [mkrow id email secret clock clock]) id).

(** [UPDATE totp_secrets SET secret = ?, updated_at = CURRENT_TIMESTAMP
    WHERE email = ?]; returns the new table and [cursor.rowcount]. *)
Definition update (d : db) (new_secret email : string) (clock : Z) : db * Z :=
  (mkdb (map (fun r => if has_email email r
                       then mkrow (row_id r) (row_email r) new_secret (created_at r) clock
                       else r) (rows d))
        (seq d),
   Z.of_nat (List.length (filter (has_email email) (rows d)))).

(** [DELETE FROM totp_secrets WHERE email = ?]; returns the new table and
    [cursor.rowcount]. *)
Definition delete (d : db) (email : string) : db * Z :=
  (mkdb (filter (fun r => negb (has_email email r)) (rows d)) (seq d),
   Z.of_nat (List.length (filter (has_email email) (rows d)))).

Definition is_percent (c : ascii) : bool := Ascii.eqb c "%".

Definition is_underscore (c : ascii) : bool := Ascii.eqb c "_".

(** One pattern character against one subject character, as in SQLite's
    [patternCompare] with [noCase]: equal, or equal after ASCII case
    folding, or the pattern character is the wildcard [_]. *)
Definition like_char (c c2 : ascii) : bool :=
  Ascii.eqb c c2
  || (Ascii.eqb (lower_char c) (lower_char c2)
      && Base32.is_ascii_char c && Base32.is_ascii_char c2)
  || is_underscore c.

(** [subject LIKE pattern] (no ESCAPE clause): [%] matches any run of
    characters, [_] any one character, every other character itself up to
    ASCII case.  This is the relation SQLite's [patternCompare] decides
    (its cap on the pattern length is left out). *)
Fixpoint like (pattern : string) : string -> bool :=
  match pattern with
  | EmptyString => fun s => match s with EmptyString => true | _ => false end
  | String c p' =>
      if is_percent c then
        fix any_run (s : string) : bool :=
          like p' s
          || match s with
             | EmptyString => false
             | String _ s' => any_run s'
             end
      else
        fun s =>
          match s with
          | EmptyString => false
          | String c2 s' => like_char c c2 && like p' s'
          end
  end.

(** [ORDER BY email]: BINARY collation compares byte by byte. *)
Definition email_le (r1 r2 : row) : bool := String.leb (row_email r1) (row_email r2).

Fixpoint insert_sorted (r : row) (l : list row) : list row :=
  match l with
  | [] => [r]
  | x :: l' => if email_le r x then r :: l else x :: insert_sorted r l'
  end.

Definition order_by_email (l : list row) : list row := fold_right insert_sorted [] l.

(** The columns [id, email, secret] of a result row. *)
Definition columns (r : row) : Z * string * string :=
  (row_id r, row_email r, row_secret r).

(** [SELECT id, email, secret FROM totp_secrets WHERE email LIKE ?
    ORDER BY email] *)
Definition select_like (d : db) (pattern : string) : list (Z * string * string) :=
  map columns (order_by_email (filter (fun r => like pattern (row_email r)) (rows d))).

(** [SELECT id, email, secret FROM totp_secrets ORDER BY email] *)
Definition select_all (d : db) : list (Z * string * string) :=
  map columns (order_by_email (rows d)).

End Sql.

(** ** [class TOTPManager] *)

(** The lines the program prints, by kind. *)
Inductive message : Type :=
| MsgAdded (email : string)            (* Successfully added TOTP secret for .. *)
| MsgAlreadyExists (email : string)    (* Error: Email .. already exists *)
| MsgInvalidFormat (e : exn)           (* Error: Invalid secret format - .. *)
| MsgUpdated (email : string)          (* Successfully updated TOTP secret for .. *)
| MsgNotFound (email : string)         (* Error: Email .. not found *)
| MsgDeleted (email : string)          (* Successfully deleted TOTP secret for .. *)
| MsgNoMatching                        (* No matching emails found. *)
| MsgFoundEmails                       (* Found emails: *)
| MsgRule                              (* a line of sixty dashes *)
| MsgItem (idx : Z) (email : string)   (* idx. email *)
| MsgNoEmailsFound (term : string)     (* No emails found matching '..' *)
| MsgCodeFor (email : string)          (* TOTP code for ..: *)
| MsgCode (code : string)              (* the code, indented *)
| MsgCancelled                         (* Cancelled. *)
| MsgInvalidSelection                  (* Invalid selection. *)
| MsgInvalidInput.                     (* Invalid input. *)

Module TOTPManager.

(** What a store method leaves behind: the database file after the call,
    the line printed and the value returned. *)
Record outcome : Type := mkoutcome {
  store : Sql.db;
  printed : message;
  returned : bool
}.

(** [secret.replace(' ', '').upper()], the first statement of [add_secret]
    and of [update_secret]. *)
Definition normalize (secret : string) : string := upper (remove_char " " secret).

(** The [try] block of [add_secret]; the result is the database after
    [conn.commit()]. *)
Definition add_secret_try (d : Sql.db) (email secret : string) (clock : Z)
  : result Sql.db :=
  let secret := normalize secret in
  _ <- Pyotp.now secret clock ;;
  Sql.insert d email secret clock.

(** [add_secret]: the two [except] clauses leave the database as it was. *)
Definition add_secret (d : Sql.db) (email secret : string) (clock : Z) : outcome :=
  match add_secret_try d email secret clock with
  | Ok d' => mkoutcome d' (MsgAdded email) true
  | Raise IntegrityError => mkoutcome d (MsgAlreadyExists email) false
  | Raise e => mkoutcome d (MsgInvalidFormat e) false
  end.

(** [update_secret]: with [rowcount == 0] the connection is closed without
    a commit. *)
Definition update_secret (d : Sql.db) (email new_secret : string) (clock : Z)
  : outcome :=
  let new_secret := normalize new_secret in
  match Pyotp.now new_secret clock with
  | Raise e => mkoutcome d (MsgInvalidFormat e) false
  | Ok _ =>
      let '(d', rowcount) := Sql.update d new_secret email clock in
      if rowcount =? 0 then mkoutcome d (MsgNotFound email) false
      else mkoutcome d' (MsgUpdated email) true
  end.

(** [delete_secret] *)
Definition delete_secret (d : Sql.db) (email : string) : outcome :=
  let '(d', rowcount) := Sql.delete d email in
  if rowcount =? 0 then mkoutcome d (MsgNotFound email) false
  else mkoutcome d' (MsgDeleted email) true.

(** [search_emails]: the term is placed between two [%] and sent as the
    [LIKE] pattern. *)
Definition search_emails (d : Sql.db) (search_term : string)
  : list (Z * string * string) :=
  Sql.select_like d ("%" ++ search_term ++ "%")%string.

(** [get_all_emails] *)
Definition get_all_emails (d : Sql.db) : list (Z * string * string) :=
  Sql.select_all d.

(** [get_totp(secret)] when the clock reads [clock]. *)
Definition get_totp (secret : string) (clock : Z) : result string :=
  Pyotp.now secret clock.

End TOTPManager.

(** ** [main], the [get] command *)

Module Main.

(** Programs that write a line ([print]), read a line ([input]) and ask the
    manager for a code ([get_totp]). *)
Inductive prog : Type :=
| Exit (status : Z)
| Uncaught (e : exn)
| Output (m : message) (k : prog)
| Input (k : option string -> prog)
| GetTotp (secret : string) (k : result string -> prog).

(** [str.isspace] on ASCII. *)
Definition is_space (c : ascii) : bool :=
  let n := ord c in
  ((9 <=? n) && (n <=? 13)) || ((28 <=? n) && (n <=? 32)).

Fixpoint lstrip (s : string) : string :=
  match s with
  | EmptyString => EmptyString
  | String c s' => if is_space c then lstrip s' else s
  end.

(** [s.strip()] *)
Definition strip (s : string) : string :=
  rev_string (lstrip (rev_string (lstrip s))).

Definition is_digit (c : ascii) : bool := (48 <=? ord c) && (ord c <=? 57).

(** The digits of an integer literal; single underscores may separate
    digits. *)
Fixpoint digits_value (s : string) (acc : Z) (after_digit : bool) : option Z :=
  match s with
  | EmptyString => if after_digit then Some acc else None
  | String c s' =>
      if is_digit c then digits_value s' (10 * acc + (ord c - 48)) true
      else if Sql.is_underscore c && after_digit then digits_value s' acc false
      else None
  end.

(** [int(s)] in base ten on ASCII text; [None] stands for [ValueError].
    (The cap newer interpreters put on the number of digits is left out.) *)
Definition int (s : string) : option Z :=
  match strip s with
  | String "+" s' => digits_value s' 0 false
  | String "-" s' => option_map Z.opp (digits_value s' 0 false)
  | s' => digits_value s' 0 false
  end.

Fixpoint print_items (idx : Z) (results : list (Z * string * string)) (k : prog)
  : prog :=
  match results with
  | [] => k
  | (_, email, _) :: rest => Output (MsgItem idx email) (print_items (idx + 1) rest k)
  end.

(** [display_results(results)]; the continuation receives the value
    returned. *)
Definition display_results (results : list (Z * string * string))
  (k : option (list (Z * string * string)) -> prog) : prog :=
  match results with
  | [] => Output MsgNoMatching (k None)
  | _ =>
      Output MsgFoundEmails (Output MsgRule
        (print_items 1 results (Output MsgRule (k (Some results)))))
  end.

Definition print_code (email code : string) : prog :=
  Output (MsgCodeFor email) (Output (MsgCode code) (Exit 0)).

(** The body of the [try] after a line has been read. *)
Definition select (displayed : option (list (Z * string * string))) (line : string)
  : prog :=
  let choice := strip line in
  if String.eqb choice "" then Output MsgCancelled (Exit 0)
  else
    match int choice with
    | None => Output MsgInvalidInput (Exit 1)
    | Some n =>
        let choice_idx := n - 1 in
        match displayed with
        | None => Uncaught TypeError
        | Some displayed =>
            if (0 <=? choice_idx) && (choice_idx <? Z.of_nat (List.length displayed))
            then
              match nth_error displayed (Z.to_nat choice_idx) with
              | Some (_, email, secret) =>
                  GetTotp secret (fun r =>
                    match r with
                    | Ok totp_code => print_code email totp_code
                    | Raise e =>
                        if is_value_error e then Output MsgInvalidInput (Exit 1)
                        else Uncaught e
                    end)
              | None => Uncaught IndexError
              end
            else Output MsgInvalidSelection (Exit 1)
        end
    end.

(** [main] with [sys.argv = [_, 'get', search_term]] *)
Definition get_command (d : Sql.db) (search_term : string) : prog :=
  let results := TOTPManager.search_emails d search_term in
  match results with
  | [] => Output (MsgNoEmailsFound search_term) (Exit 1)
  | (_, email, secret) :: _ =>
      if Nat.eqb (List.length results) 1 then
        GetTotp secret (fun r =>
          match r with
          | Ok totp_code => print_code email totp_code
          | Raise e => Uncaught e
          end)
      else
        display_results results (fun displayed =>
          Input (fun line =>
            match line with
            | None => Uncaught EOFError
            | Some line => select displayed line
            end))
  end.

(** What an observer sees of a run. *)
Inductive event : Type :=
| Printed (m : message)
| Prompted
| Generated (secret : string) (r : result string).

Inductive ending : Type :=
| Exited (status : Z)
| Crashed (e : exn).

(** Run a program with the clock at [clock] and the lines [stdin] waiting
    on standard input. *)
Fixpoint run (p : prog) (clock : Z) (stdin : list string) : list event * ending :=
  match p with
  | Exit status => ([], Exited status)
  | Uncaught e => ([], Crashed e)
  | Output m k =>
      let '(evs, fin) := run k clock stdin in (Printed m :: evs, fin)
  | Input k =>
      let '(evs, fin) :=
        match stdin with
        | [] => run (k None) clock []
        | line :: rest => run (k (Some line)) clock rest
        end in
      (Prompted :: evs, fin)
  | GetTotp secret k =>
      let r := TOTPManager.get_totp secret clock in
      let '(evs, fin) := run (k r) clock stdin in (Generated secret r :: evs, fin)
  end.

End Main.

(** ** Vocabulary of the specification *)

Module Spec.

(** [c] and [d] are the same character up to ASCII letter case. *)
Definition same_letter (c d : ascii) : Prop :=
  c = d
  \/ (is_lower c = true /\ ord d = ord c - 32)
  \/ (is_lower d = true /\ ord c = ord d - 32).

(** Two strings that differ only in characters satisfying [blank] and in
    letter case. *)
Inductive same_modulo (blank : ascii -> bool) : string -> string -> Prop :=
| sm_nil : same_modulo blank EmptyString EmptyString
| sm_blank_l c s t :
    blank c = true -> same_modulo blank s t -> same_modulo blank (String c s) t
| sm_blank_r c s t :
    blank c = true -> same_modulo blank s t -> same_modulo blank s (String c t)
| sm_letter c d s t :
    same_letter c d -> same_modulo blank s t ->
    same_modulo blank (String c s) (String d t).

Definition is_space_char (c : ascii) : bool := Ascii.eqb c " ".

(** Equality of strings up to ASCII letter case. *)
Fixpoint eq_nocase (s t : string) : Prop :=
  match s, t with
  | EmptyString, EmptyString => True
  | String c s', String d t' => lower_char c = lower_char d /\ eq_nocase s' t'
  | _, _ => False
  end.

(** [term] occurs in [s] as a substring, up to ASCII letter case. *)
Definition contains_nocase (term s : string) : Prop :=
  exists pre mid post, s = (pre ++ mid ++ post)%string /\ eq_nocase term mid.


(** The identities stored. *)
Definition emails (d : Sql.db) : list string := map Sql.row_email (Sql.rows d).

Definition present (email : string) (d : Sql.db) : Prop := In email (emails d).

(** The UNIQUE constraint of the schema. *)
Definition unique_emails (d : Sql.db) : Prop := NoDup (emails d).

(** The secret stored for an identity, if any. *)
Definition secret_of (d : Sql.db) (email : string) : option string :=
  option_map Sql.row_secret (find (Sql.has_email email) (Sql.rows d)).

(** Rows in ascending order of identity. *)
Definition ordered_by_email (l : list Sql.row) : Prop :=
  Sorted (fun r1 r2 => Sql.email_le r1 r2 = true) l.

(** A 32-bit big-endian unsigned integer from its four bytes. *)
Definition be32 (b0 b1 b2 b3 : Z) : Z :=
  b0 * 16777216 + b1 * 65536 + b2 * 256 + b3.

(** Dynamic truncation of a 20-byte digest: the offset is the low nibble of
    the last byte; the four bytes from there, big-endian, with the top bit
    cleared. *)
Definition dynamic_truncation (hmac : list Z) : Z :=
  let offset := Z.to_nat (Z.land (nth 19 hmac 0) 15) in
  Z.land (be32 (nth offset hmac 0) (nth (offset + 1) hmac 0)
               (nth (offset + 2) hmac 0) (nth (offset + 3) hmac 0))
         2147483647.

(** The value of a string of decimal digits. *)
Fixpoint decimal_from (acc : Z) (s : string) : Z :=
  match s with
  | EmptyString => acc
  | String c s' => decimal_from (10 * acc + (ord c - 48)) s'
  end.

Definition decimal_value (s : string) : Z := decimal_from 0 s.

(** The [k] low decimal digits of [n], most significant first, put in
    front of [acc]. *)
Fixpoint digits_onto (k : nat) (n : Z) (acc : string) : string :=
  match k with
  | O => acc
  | S k' => digits_onto k' (n / 10) (String (Pyotp.digit_char (n mod 10)) acc)
  end.

(** The decimal numeral of [n] on exactly [width] characters, padded with
    zeros on the left. *)
Definition zero_padded (width : nat) (n : Z) : string := digits_onto width n EmptyString.

(** The bytes of [i], least significant first, on [k] bytes. *)
Fixpoint le_bytes (k : nat) (i : Z) : list Z :=
  match k with
  | O => []
  | S k' => Z.land i 255 :: le_bytes k' (Z.shiftr i 8)
  end.

(** Decision procedures for [eq_nocase] on a prefix and for
    [contains_nocase]. *)
Fixpoint prefix_nocase (term s : string) : bool :=
  match term, s with
  | EmptyString, _ => true
  | String c term', String d s' =>
      Ascii.eqb (lower_char c) (lower_char d) && prefix_nocase term' s'
  | String _ _, EmptyString => false
  end.

Fixpoint occurs_nocase (term s : string) : bool :=
  prefix_nocase term s
  || match s with
     | EmptyString => false
     | String _ s' => occurs_nocase term s'
     end.

(** The candidate list shown for several matches: a heading, a rule, the
    identities numbered from one in the order of the results, a rule. *)
Fixpoint numbered (idx : Z) (results : list (Z * string * string)) : list message :=
  match results with
  | [] => []
  | (_, email, _) :: rest => MsgItem idx email :: numbered (idx + 1) rest
  end.

Definition candidate_list (results : list (Z * string * string)) : list message :=
  MsgFoundEmails :: MsgRule :: numbered 1 results ++ [MsgRule].

(** The secrets from which a code was generated before the first prompt
    for a selection. *)
Fixpoint generated_before_prompt (evs : list Main.event) : list string :=
  match evs with
  | [] => []
  | Main.Prompted :: _ => []
  | Main.Generated secret _ :: evs' => secret :: generated_before_prompt evs'
  | Main.Printed _ :: evs' => generated_before_prompt evs'
  end.

(** The 30-second window of a Unix time. *)
Definition time_window (unix_time : Z) : Z := unix_time / 30.

End Spec.

(** ** [main], all commands *)

Module Cli.

(** [init_db]: [CREATE TABLE IF NOT EXISTS]; [None] is a database file in
    which the table does not exist yet. *)
Definition init_db (file : option Sql.db) : Sql.db :=
  match file with
  | Some d => d
  | None => Sql.empty
  end.

(** [s.lower()] on ASCII text. *)
Definition lower (s : string) : string := map_string lower_char s.

(** What [main] writes besides the lines of the manager. *)
Inductive line : Type :=
| Line (m : message)
| Usage                           (* print_usage() *)
| UsageOf (command : string)      (* Usage: python totp_manager.py <command> .. *)
| UnknownCommand (command : string)
| DeletionCancelled               (* Deletion cancelled. *)
| NoSecretsStored.                (* No TOTP secrets stored yet. *)

Inductive event : Type :=
| Wrote (l : line)
| AskedToConfirm (email : string) (* input("Are you sure you want to delete ..?") *)
| Sub (e : Main.event).           (* an event of the get or list dialogue *)

(** The dialogue of [list] once the results are known not to be empty: the
    same [try] block as in [get]. *)
Definition list_dialogue (results : list (Z * string * string)) : Main.prog :=
  Main.display_results results (fun displayed =>
    Main.Input (fun line =>
      match line with
      | None => Main.Uncaught EOFError
      | Some line => Main.select displayed line
      end)).

Definition dialogue (p : Main.prog) (d : Sql.db) (clock : Z) (stdin : list string)
  : list event * Main.ending * Sql.db :=
  let '(evs, fin) := Main.run p clock stdin in (map Sub evs, fin, d).

Definition usage_error (command : string) (d : Sql.db)
  : list event * Main.ending * Sql.db :=
  ([Wrote (UsageOf command)], Main.Exited 1, d).

Definition report (o : TOTPManager.outcome) : list event * Main.ending * Sql.db :=
  ([Wrote (Line (TOTPManager.printed o))], Main.Exited 0, TOTPManager.store o).

(** [main()] with [sys.argv = argv], the database file [file], the clock at
    [clock] and the lines [stdin] waiting on standard input: what is
    written, how the process ends and the database file afterwards. *)
Definition main (argv : list string) (file : option Sql.db) (clock : Z)
  (stdin : list string) : list event * Main.ending * Sql.db :=
  let d := init_db file in
  match argv with
  | [] | [_] => ([Wrote Usage], Main.Exited 1, d)
  | _ :: arg1 :: args =>
      let command := lower arg1 in
      if String.eqb command "help" then ([Wrote Usage], Main.Exited 0, d)
      else if String.eqb command "add" then
        match args with
        | [email; secret] => report (TOTPManager.add_secret d email secret clock)
        | _ => usage_error "add" d
        end
      else if String.eqb command "update" then
        match args with
        | [email; secret] => report (TOTPManager.update_secret d email secret clock)
        | _ => usage_error "update" d
        end
      else if String.eqb command "delete" then
        match args with
        | [email] =>
            match stdin with
            | [] => ([AskedToConfirm email], Main.Crashed EOFError, d)
            | confirm :: _ =>
                if String.eqb (lower confirm) "yes" then
                  let o := TOTPManager.delete_secret d email in
                  ([AskedToConfirm email; Wrote (Line (TOTPManager.printed o))],
                   Main.Exited 0, TOTPManager.store o)
                else ([AskedToConfirm email; Wrote DeletionCancelled], Main.Exited 0, d)
            end
        | _ => usage_error "delete" d
        end
      else if String.eqb command "get" then
        match args with
        | [search_term] => dialogue (Main.get_command d search_term) d clock stdin
        | _ => usage_error "get" d
        end
      else if String.eqb command "list" then
        match TOTPManager.get_all_emails d with
        | [] => ([Wrote NoSecretsStored], Main.Exited 0, d)
        | results => dialogue (list_dialogue results) d clock stdin
        end
      else ([Wrote (UnknownCommand command); Wrote Usage], Main.Exited 1, d)
  end.

End Cli.

(** ** Invariants and observations used in the statements *)

Module Inv.

(** Row ids are pairwise distinct and none exceeds the AUTOINCREMENT
    counter. *)
Definition ids_fresh (d : Sql.db) : Prop :=
  NoDup (map Sql.row_id (Sql.rows d))
  /\ Forall (fun r => Sql.row_id r <= Sql.seq d) (Sql.rows d).

(** Every stored secret decodes. *)
Definition secrets_decode (d : Sql.db) : Prop :=
  Forall (fun r => exists key, Pyotp.byte_secret (Sql.row_secret r) = Ok key)
         (Sql.rows d).

(** Every stored secret is in normal form. *)
Definition secrets_normal (d : Sql.db) : Prop :=
  Forall (fun r => TOTPManager.normalize (Sql.row_secret r) = Sql.row_secret r)
         (Sql.rows d).

(** The secrets from which a code was generated during a run. *)
Fixpoint generated (evs : list Main.event) : list string :=
  match evs with
  | [] => []
  | Main.Generated secret _ :: evs' => secret :: generated evs'
  | _ :: evs' => generated evs'
  end.

(** The identity and the secret of a result row [(id, email, secret)]. *)
Definition result_email (x : Z * string * string) : string := snd (fst x).

Definition result_secret (x : Z * string * string) : string := snd x.

(** Results in ascending order of identity. *)
Definition results_ordered (results : list (Z * string * string)) : Prop :=
  Sorted (fun x y => String.leb (result_email x) (result_email y) = true) results.

(** The store after a sequence of successful or failed writes. *)
Inductive write : Type :=
| Add (email secret : string) (clock : Z)
| Update (email secret : string) (clock : Z)
| Delete (email : string).

Definition apply_write (d : Sql.db) (w : write) : Sql.db :=
  match w with
  | Add email secret clock =>
      TOTPManager.store (TOTPManager.add_secret d email secret clock)
  | Update email secret clock =>
      TOTPManager.store (TOTPManager.update_secret d email secret clock)
  | Delete email => TOTPManager.store (TOTPManager.delete_secret d email)
  end.

(** The stores that the manager can build from the empty table. *)
Definition reachable (d : Sql.db) : Prop :=
  exists ws, d = fold_left apply_write ws Sql.empty.

End Inv.

(** A byte value. *)
Definition is_byte (b : Z) : Prop := 0 <= b < 256.

(** A line holding a tab, for the examples. *)
Definition tabbed_secret : string := ("jbsw" ++ String (chr 9) "y3dp")%string.

(** A small store for the examples. *)
Definition example_db : Sql.db :=
  Sql.mkdb [Sql.mkrow 1 "bob@x.org" "JBSWY3DP" 59 59;
            Sql.mkrow 2 "al_ice@x.org" "GEZDGNBVGY3TQOJQGEZDGNBVGY3TQOJQ" 60 60;
            Sql.mkrow 3 "alXice@x.org" "MFRGG" 61 61] 3.

Definition rfc_secret : string := "GEZDGNBVGY3TQOJQGEZDGNBVGY3TQOJQ".

(** * Properties *)

(** ** Characters *)

Ltac unbool :=
  repeat (rewrite ?andb_true_iff, ?orb_true_iff, ?negb_true_iff,
                  ?andb_false_iff, ?orb_false_iff, ?negb_false_iff,
                  ?Z.leb_le, ?Z.ltb_lt, ?Z.eqb_eq, ?Z.leb_gt, ?Z.ltb_ge,
                  ?Z.eqb_neq in *).

Lemma ord_range (c : ascii) : 0 <= ord c < 256.
Proof.
  unfold ord. pose proof (N_ascii_bounded c) as H. lia.
Qed.

Lemma chr_ord (c : ascii) : chr (ord c) = c.
Proof.
  unfold chr, ord. rewrite N2Z.id. apply ascii_N_embedding.
Qed.

Lemma ord_chr (z : Z) : 0 <= z < 256 -> ord (chr z) = z.
Proof.
  intros H. unfold chr, ord. rewrite N_ascii_embedding by lia. lia.
Qed.

Lemma ord_inj (c d : ascii) : ord c = ord d -> c = d.
Proof.
  intros H. rewrite <- (chr_ord c), <- (chr_ord d). now rewrite H.
Qed.

Lemma is_lower_iff (c : ascii) : is_lower c = true <-> 97 <= ord c <= 122.
Proof. unfold is_lower. unbool. lia. Qed.

Lemma is_upper_iff (c : ascii) : is_upper c = true <-> 65 <= ord c <= 90.
Proof. unfold is_upper. unbool. lia. Qed.

Lemma ord_upper_char (c : ascii) :
  ord (upper_char c) = if is_lower c then ord c - 32 else ord c.
Proof.
  unfold upper_char. destruct (is_lower c) eqn:E; [|reflexivity].
  apply is_lower_iff in E. apply ord_chr. lia.
Qed.

Lemma ord_lower_char (c : ascii) :
  ord (lower_char c) = if is_upper c then ord c + 32 else ord c.
Proof.
  unfold lower_char. destruct (is_upper c) eqn:E; [|reflexivity].
  apply is_upper_iff in E. apply ord_chr. lia.
Qed.

Lemma is_space_char_iff (c : ascii) : Spec.is_space_char c = true <-> ord c = 32.
Proof.
  unfold Spec.is_space_char. rewrite Ascii.eqb_eq. split.
  - intros ->. reflexivity.
  - intros H. apply ord_inj. exact H.
Qed.

Lemma same_letter_upper (c d : ascii) :
  Spec.same_letter c d -> upper_char c = upper_char d.
Proof.
  intros [-> | [[Hc Hd] | [Hd Hc]]]; [reflexivity | |];
    apply ord_inj; rewrite !ord_upper_char.
  - rewrite Hc. destruct (is_lower d) eqn:E; [|lia].
    apply is_lower_iff in Hc, E. lia.
  - rewrite Hd. destruct (is_lower c) eqn:E; [|lia].
    apply is_lower_iff in Hd, E. lia.
Qed.

Lemma same_letter_space (c d : ascii) :
  Spec.same_letter c d -> Spec.is_space_char c = Spec.is_space_char d.
Proof.
  intros H.
  destruct (Spec.is_space_char c) eqn:Ec, (Spec.is_space_char d) eqn:Ed;
    try reflexivity; exfalso.
  - apply is_space_char_iff in Ec.
    assert (ord d <> 32) by (intros F; apply is_space_char_iff in F; congruence).
    destruct H as [-> | [[Hc Hd] | [Hd Hc]]]; [lia | |].
    + apply is_lower_iff in Hc. lia.
    + apply is_lower_iff in Hd. lia.
  - apply is_space_char_iff in Ed.
    assert (ord c <> 32) by (intros F; apply is_space_char_iff in F; congruence).
    destruct H as [-> | [[Hc Hd] | [Hd Hc]]]; [lia | |].
    + apply is_lower_iff in Hc. lia.
    + apply is_lower_iff in Hd. lia.
Qed.

(** ** Normalization of secrets *)

Lemma normalize_cons (c : ascii) (s : string) :
  TOTPManager.normalize (String c s) =
  if Spec.is_space_char c then TOTPManager.normalize s
  else String (upper_char c) (TOTPManager.normalize s).
Proof.
  unfold TOTPManager.normalize, upper, remove_char, Spec.is_space_char. simpl.
  destruct (Ascii.eqb c " "); reflexivity.
Qed.

Lemma upper_char_clean (c : ascii) :
  Spec.is_space_char c = false ->
  Spec.is_space_char (upper_char c) = false /\ is_lower (upper_char c) = false.
Proof.
  intros Hc.
  assert (ord c <> 32) as Hn by (intros F; apply is_space_char_iff in F; congruence).
  pose proof (ord_upper_char c) as Hu.
  destruct (is_lower c) eqn:E.
  - apply is_lower_iff in E. split.
    + destruct (Spec.is_space_char (upper_char c)) eqn:F; [|reflexivity].
      apply is_space_char_iff in F. lia.
    + destruct (is_lower (upper_char c)) eqn:F; [|reflexivity].
      apply is_lower_iff in F. lia.
  - unfold upper_char. rewrite E. auto.
Qed.

(** C1: with the Base32 secret of the RFC 6238 test key (the ASCII bytes of
    "12345678901234567890"), the code generated at Unix time 59 is "287082"
    and the code generated at Unix time 1111111109 is "081804". *)
Theorem get_totp_rfc6238_vectors :
  Pyotp.byte_secret rfc_secret =
    Ok (map ord (list_ascii_of_string "12345678901234567890"))
  /\ TOTPManager.get_totp rfc_secret 59 = Ok "287082"
  /\ TOTPManager.get_totp rfc_secret 1111111109 = Ok "081804".
Proof.
  vm_compute. repeat split.
Qed.

(** C2 as stated fails: a tab is white space, yet it survives
    normalization, so the tabbed secret and "JBSWY3DP", which differ only
    in white space and letter case, normalize to different strings. *)
Lemma normalize_keeps_tab :
  Spec.same_modulo Main.is_space tabbed_secret "JBSWY3DP"
  /\ forall_string (fun c => negb (Main.is_space c))
       (TOTPManager.normalize tabbed_secret) = false
  /\ TOTPManager.normalize tabbed_secret <> TOTPManager.normalize "JBSWY3DP".
Proof.
  split; [|split].
  - unfold tabbed_secret. simpl.
    apply Spec.sm_letter; [right; left; split; reflexivity|].
    apply Spec.sm_letter; [right; left; split; reflexivity|].
    apply Spec.sm_letter; [right; left; split; reflexivity|].
    apply Spec.sm_letter; [right; left; split; reflexivity|].
    apply Spec.sm_blank_l; [reflexivity|].
    apply Spec.sm_letter; [right; left; split; reflexivity|].
    apply Spec.sm_letter; [left; reflexivity|].
    apply Spec.sm_letter; [right; left; split; reflexivity|].
    apply Spec.sm_letter; [right; left; split; reflexivity|].
    apply Spec.sm_nil.
  - vm_compute. reflexivity.
  - vm_compute. discriminate.
Qed.

(** C2, amended: normalization removes every space character (U+0020) and
    upper-cases the rest, so two raw secrets that differ only in spaces and
    letter case normalize to the same string, which holds no space and no
    lower-case letter. *)
Theorem normalize_space_case_insensitive (s t : string) :
  Spec.same_modulo Spec.is_space_char s t ->
  TOTPManager.normalize s = TOTPManager.normalize t
  /\ forall_string (fun c => negb (Spec.is_space_char c) && negb (is_lower c))
       (TOTPManager.normalize s) = true.
Proof.
  intros H. split.
  - induction H as [| c s t Hc _ IH | c s t Hc _ IH | c d s t Hcd _ IH].
    + reflexivity.
    + rewrite normalize_cons, Hc. exact IH.
    + rewrite normalize_cons, Hc. exact IH.
    + rewrite !normalize_cons, <- (same_letter_space c d Hcd).
      destruct (Spec.is_space_char c); [exact IH|].
      rewrite (same_letter_upper c d Hcd), IH. reflexivity.
  - clear H t. induction s as [| c s IH]; [reflexivity|].
    rewrite normalize_cons. destruct (Spec.is_space_char c) eqn:E; [exact IH|].
    simpl. destruct (upper_char_clean c E) as [-> ->]. exact IH.
Qed.

(** The instance the specification names: "jbsw y3dp" against "JBSWY3DP". *)
Lemma normalize_space_case_insensitive_witness :
  TOTPManager.normalize "jbsw y3dp" = TOTPManager.normalize "JBSWY3DP".
Proof.
  apply (normalize_space_case_insensitive "jbsw y3dp" "JBSWY3DP").
  apply Spec.sm_letter; [right; left; split; reflexivity|].
  apply Spec.sm_letter; [right; left; split; reflexivity|].
  apply Spec.sm_letter; [right; left; split; reflexivity|].
  apply Spec.sm_letter; [right; left; split; reflexivity|].
  apply Spec.sm_blank_l; [reflexivity|].
  apply Spec.sm_letter; [right; left; split; reflexivity|].
  apply Spec.sm_letter; [left; reflexivity|].
  apply Spec.sm_letter; [right; left; split; reflexivity|].
  apply Spec.sm_letter; [right; left; split; reflexivity|].
  apply Spec.sm_nil.
Defined.

(** ** Bytes and digests *)

Lemma land_255_byte (x : Z) : is_byte (Z.land x 255).
Proof.
  unfold is_byte. change 255 with (Z.ones 8). rewrite Z.land_ones by lia.
  apply Z.mod_pos_bound. reflexivity.
Qed.

Lemma land_255_id (b : Z) : is_byte b -> Z.land b 255 = b.
Proof.
  intros H. change 255 with (Z.ones 8). rewrite Z.land_ones by lia.
  apply Z.mod_small. exact H.
Qed.

Lemma be_bytes_length (k : nat) (x : Z) : List.length (SHA1.be_bytes k x) = k.
Proof. induction k; simpl; congruence. Qed.

Lemma be_bytes_bytes (k : nat) (x : Z) : Forall is_byte (SHA1.be_bytes k x).
Proof.
  induction k; simpl; constructor; [apply land_255_byte | assumption].
Qed.

Lemma digest_of_length (h : SHA1.state) : List.length (SHA1.digest_of h) = 20%nat.
Proof.
  unfold SHA1.digest_of. rewrite !length_app, !be_bytes_length. reflexivity.
Qed.

Lemma digest_of_bytes (h : SHA1.state) : Forall is_byte (SHA1.digest_of h).
Proof.
  unfold SHA1.digest_of. repeat (apply Forall_app; split); apply be_bytes_bytes.
Qed.

Lemma hmac_sha1_length (key msg : list Z) :
  List.length (HMAC.hmac_sha1 key msg) = 20%nat.
Proof. unfold HMAC.hmac_sha1, SHA1.sha1. apply digest_of_length. Qed.

Lemma hmac_sha1_bytes (key msg : list Z) : Forall is_byte (HMAC.hmac_sha1 key msg).
Proof. unfold HMAC.hmac_sha1, SHA1.sha1. apply digest_of_bytes. Qed.

Lemma nth_byte (l : list Z) (n : nat) : Forall is_byte l -> is_byte (nth n l 0).
Proof.
  intros H. destruct (Nat.lt_ge_cases n (List.length l)) as [Hn | Hn].
  - rewrite Forall_forall in H. apply H. apply nth_In. exact Hn.
  - rewrite nth_overflow by exact Hn. unfold is_byte. lia.
Qed.

(** ** Dynamic truncation *)

Lemma land_mul_pow2_small (a b n : Z) :
  0 <= n -> 0 <= b < 2 ^ n -> Z.land (a * 2 ^ n) b = 0.
Proof.
  intros Hn Hb. apply Z.bits_inj'. intros i Hi.
  rewrite Z.land_spec, Z.bits_0.
  destruct (Z.ltb_spec i n) as [Hlt | Hge].
  - rewrite Z.mul_pow2_bits_low by lia. reflexivity.
  - assert (Z.testbit b i = false) as ->; [|apply andb_false_r].
    destruct (Z.eq_dec b 0) as [-> | Hnz]; [apply Z.bits_0|].
    apply Z.bits_above_log2; [lia|].
    assert (Z.log2 b < n) by (apply Z.log2_lt_pow2; lia). lia.
Qed.

Lemma lor_mul_pow2_small (a b n : Z) :
  0 <= n -> 0 <= b < 2 ^ n -> Z.lor (a * 2 ^ n) b = a * 2 ^ n + b.
Proof.
  intros Hn Hb. pose proof (land_mul_pow2_small a b n Hn Hb) as H.
  rewrite <- Z.lxor_lor by exact H. symmetry. apply Z.add_nocarry_lxor. exact H.
Qed.

Lemma truncation_bits (b0 b1 b2 b3 : Z) :
  is_byte b0 -> is_byte b1 -> is_byte b2 -> is_byte b3 ->
  Z.lor (Z.lor (Z.lor (Z.shiftl (Z.land b0 127) 24) (Z.shiftl (Z.land b1 255) 16))
               (Z.shiftl (Z.land b2 255) 8))
        (Z.land b3 255)
  = Z.land (Spec.be32 b0 b1 b2 b3) 2147483647.
Proof.
  unfold is_byte, Spec.be32. intros H0 H1 H2 H3.
  rewrite !land_255_id by assumption.
  change 127 with (Z.ones 7). change 2147483647 with (Z.ones 31).
  rewrite !Z.land_ones by lia. rewrite !Z.shiftl_mul_pow2 by lia.
  pose proof (Z.mod_pos_bound b0 (2 ^ 7) eq_refl) as Hm.
  pose proof (Z.div_mod b0 (2 ^ 7)) as Hd.
  set (r := b0 mod 2 ^ 7) in *. set (q := b0 / 2 ^ 7) in *.
  change (2 ^ 7) with 128 in *.
  rewrite (lor_mul_pow2_small r (b1 * 2 ^ 16) 24) by (change (2 ^ 24) with 16777216; lia).
  replace (r * 2 ^ 24 + b1 * 2 ^ 16) with ((r * 2 ^ 8 + b1) * 2 ^ 16) by ring.
  rewrite (lor_mul_pow2_small _ (b2 * 2 ^ 8) 16) by (change (2 ^ 16) with 65536; lia).
  replace ((r * 2 ^ 8 + b1) * 2 ^ 16 + b2 * 2 ^ 8)
    with ((r * 2 ^ 16 + b1 * 2 ^ 8 + b2) * 2 ^ 8) by ring.
  rewrite (lor_mul_pow2_small _ b3 8) by (change (2 ^ 8) with 256; lia).
  apply Z.mod_unique with (q := q).
  - left. change (2 ^ 31) with 2147483648. change (2 ^ 16) with 65536.
    change (2 ^ 8) with 256. lia.
  - change (2 ^ 31) with 2147483648. change (2 ^ 16) with 65536.
    change (2 ^ 8) with 256. lia.
Qed.

Lemma index_in_range (l : list Z) (i : Z) :
  0 <= i < Z.of_nat (List.length l) -> Pyotp.index l i = Ok (nth (Z.to_nat i) l 0).
Proof.
  intros H. unfold Pyotp.index.
  destruct (Z.ltb_spec i 0) as [|_]; [lia|].
  destruct (Z.leb_spec 0 i); [|lia].
  destruct (Z.ltb_spec i (Z.of_nat (List.length l))); [|lia]. reflexivity.
Qed.

Lemma index_last (l : list Z) :
  List.length l = 20%nat -> Pyotp.index l (-1) = Ok (nth 19 l 0).
Proof.
  intros H. unfold Pyotp.index. rewrite H. reflexivity.
Qed.

(** The integer computed by [generate_otp] from a 20-byte digest is the
    dynamic truncation of the specification; no index is out of range. *)
Lemma truncate_spec (h : list Z) :
  List.length h = 20%nat -> Forall is_byte h ->
  Pyotp.truncate h = Ok (Spec.dynamic_truncation h).
Proof.
  intros Hlen Hb. unfold Pyotp.truncate, Spec.dynamic_truncation.
  rewrite (index_last h Hlen). simpl bind.
  assert (0 <= Z.land (nth 19 h 0) 15 < 16) as Ho.
  { change 15 with (Z.ones 4). rewrite Z.land_ones by lia.
    apply Z.mod_pos_bound. reflexivity. }
  set (o := Z.land (nth 19 h 0) 15) in *.
  rewrite !index_in_range by (rewrite Hlen; lia). simpl bind.
  rewrite !Z2Nat.inj_add by lia. change (Z.to_nat 1) with 1%nat.
  change (Z.to_nat 2) with 2%nat. change (Z.to_nat 3) with 3%nat.
  f_equal. apply truncation_bits; apply nth_byte; exact Hb.
Qed.

(** ** Decimal numerals *)

Lemma string_app_assoc (s t u : string) :
  ((s ++ t) ++ u)%string = (s ++ t ++ u)%string.
Proof. induction s; simpl; congruence. Qed.

Lemma string_app_empty_r (s : string) : (s ++ "")%string = s.
Proof. induction s; simpl; congruence. Qed.

Lemma string_length_app (s t : string) :
  String.length (s ++ t) = (String.length s + String.length t)%nat.
Proof. induction s; simpl; congruence. Qed.

Lemma drop_string_cons (k : nat) (c : ascii) (s : string) :
  drop_string (S k) (String c s) = drop_string k s.
Proof. reflexivity. Qed.

Lemma drop_string_app (s t : string) : drop_string (String.length s) (s ++ t) = t.
Proof. induction s; simpl; [destruct t; reflexivity | assumption]. Qed.

Lemma digits_onto_app (k : nat) (n : Z) (acc : string) :
  Spec.digits_onto k n acc = (Spec.digits_onto k n "" ++ acc)%string.
Proof.
  revert n acc. induction k as [| k IH]; intros n acc; [reflexivity|].
  simpl. rewrite IH. rewrite (IH _ (String _ "")).
  rewrite string_app_assoc. reflexivity.
Qed.

Lemma digits_onto_length (k : nat) (n : Z) (acc : string) :
  String.length (Spec.digits_onto k n acc) = (k + String.length acc)%nat.
Proof.
  revert n acc. induction k as [| k IH]; intros n acc; [reflexivity|].
  simpl. rewrite IH. simpl. lia.
Qed.

Lemma drop_digits_onto (k : nat) (n : Z) (acc : string) :
  drop_string k (Spec.digits_onto k n acc) = acc.
Proof.
  rewrite digits_onto_app.
  pose proof (digits_onto_length k n "") as Hl. simpl in Hl.
  rewrite Nat.add_0_r in Hl. rewrite <- Hl at 1. apply drop_string_app.
Qed.

Lemma digits_onto_shift (k : nat) (a r : Z) (acc : string) :
  Spec.digits_onto k (a * 10 ^ Z.of_nat k + r) acc = Spec.digits_onto k r acc.
Proof.
  revert a r acc. induction k as [| k IH]; intros a r acc; [reflexivity|].
  rewrite Nat2Z.inj_succ, Z.pow_succ_r by lia.
  cbn [Spec.digits_onto].
  replace (a * (10 * 10 ^ Z.of_nat k) + r)
    with (r + (a * 10 ^ Z.of_nat k) * 10) by ring.
  rewrite Z.mod_add, Z.div_add by lia.
  replace (r / 10 + a * 10 ^ Z.of_nat k) with (a * 10 ^ Z.of_nat k + r / 10) by ring.
  apply IH.
Qed.

Lemma digits_onto_split (j k : nat) (n : Z) (acc : string) :
  Spec.digits_onto (k + j) n acc =
  Spec.digits_onto j (n / 10 ^ Z.of_nat k) (Spec.digits_onto k n acc).
Proof.
  revert n acc. induction k as [| k IH]; intros n acc.
  - simpl. rewrite Z.div_1_r. reflexivity.
  - rewrite Nat2Z.inj_succ, Z.pow_succ_r by lia.
    cbn [Spec.digits_onto Nat.add]. rewrite IH.
    rewrite Z.div_div by lia. reflexivity.
Qed.

Lemma digit_char_ord (d : Z) : 0 <= d < 10 -> ord (Pyotp.digit_char d) = 48 + d.
Proof. intros H. unfold Pyotp.digit_char. apply ord_chr. lia. Qed.

Lemma digits_onto_digits (k : nat) (n : Z) (acc : string) :
  forall_string Main.is_digit (Spec.digits_onto k n acc) =
  forall_string Main.is_digit acc.
Proof.
  revert n acc. induction k as [| k IH]; intros n acc; [reflexivity|].
  simpl Spec.digits_onto. rewrite IH. simpl.
  pose proof (Z.mod_pos_bound n 10 eq_refl) as Hm.
  unfold Main.is_digit. rewrite digit_char_ord by exact Hm.
  destruct (Z.leb_spec 48 (48 + n mod 10)); [|lia].
  destruct (Z.leb_spec (48 + n mod 10) 57); [|lia]. reflexivity.
Qed.

Lemma decimal_from_digits_onto (k : nat) (a n : Z) (acc : string) :
  Spec.decimal_from a (Spec.digits_onto k n acc) =
  Spec.decimal_from (a * 10 ^ Z.of_nat k + n mod 10 ^ Z.of_nat k) acc.
Proof.
  revert a n acc. induction k as [| k IH]; intros a n acc.
  - simpl. rewrite Z.mod_1_r. f_equal. lia.
  - rewrite Nat2Z.inj_succ, Z.pow_succ_r by lia.
    cbn [Spec.digits_onto]. rewrite IH. cbn [Spec.decimal_from].
    pose proof (Z.mod_pos_bound n 10 eq_refl) as Hm.
    rewrite digit_char_ord by exact Hm.
    assert (0 < 10 ^ Z.of_nat k) as Hp by (apply Z.pow_pos_nonneg; lia).
    rewrite (Z.rem_mul_r n 10 (10 ^ Z.of_nat k)) by lia.
    f_equal. ring.
Qed.

(** The numeral [zero_padded width n] has [width] characters, all decimal
    digits, and denotes [n] modulo [10 ^ width]. *)
Lemma zero_padded_spec (width : nat) (n : Z) :
  String.length (Spec.zero_padded width n) = width
  /\ forall_string Main.is_digit (Spec.zero_padded width n) = true
  /\ Spec.decimal_value (Spec.zero_padded width n) = n mod 10 ^ Z.of_nat width.
Proof.
  unfold Spec.zero_padded, Spec.decimal_value. split; [|split].
  - rewrite digits_onto_length. simpl. lia.
  - rewrite digits_onto_digits. reflexivity.
  - rewrite decimal_from_digits_onto. simpl. reflexivity.
Qed.

Lemma str_loop_unroll (k fuel : nat) (n : Z) (acc : string) :
  10 ^ Z.of_nat k <= n -> (k < fuel)%nat ->
  Pyotp.str_loop fuel n acc =
  Pyotp.str_loop (fuel - k) (n / 10 ^ Z.of_nat k) (Spec.digits_onto k n acc).
Proof.
  revert fuel n acc. induction k as [| k IH]; intros fuel n acc Hn Hf.
  - simpl. rewrite Z.div_1_r, Nat.sub_0_r. reflexivity.
  - destruct fuel as [| fuel]; [lia|].
    rewrite Nat2Z.inj_succ, Z.pow_succ_r in * by lia.
    assert (0 < 10 ^ Z.of_nat k) as Hp by (apply Z.pow_pos_nonneg; lia).
    assert (10 ^ Z.of_nat k <= n / 10) as Hq by (apply Z.div_le_lower_bound; lia).
    cbn [Pyotp.str_loop Spec.digits_onto Nat.sub].
    destruct (Z.eqb_spec (n / 10) 0) as [E | _]; [lia|].
    rewrite IH by (assumption || lia).
    rewrite Z.div_div by lia. reflexivity.
Qed.

(** [str(10_000_000_000 + r)[-6:]] is the six-digit numeral of [r]. *)
Lemma str_code_slice (r : Z) :
  0 <= r < 1000000 ->
  Pyotp.last_chars 6 (Pyotp.str (10000000000 + r)) = Spec.zero_padded 6 r.
Proof.
  intros Hr. set (n := 10000000000 + r).
  assert (33 <= Z.log2 n) as Hlog.
  { change 33 with (Z.log2 10000000000). apply Z.log2_le_mono. lia. }
  unfold Pyotp.str.
  rewrite (str_loop_unroll 10) by (change (10 ^ Z.of_nat 10) with 10000000000; lia).
  change (10 ^ Z.of_nat 10) with 10000000000.
  assert (n / 10000000000 = 1) as ->
    by (symmetry; apply Z.div_unique with (r := r); lia).
  destruct (S (Z.to_nat (Z.log2 n)) - 10)%nat as [| m] eqn:Em; [lia|].
  cbn [Pyotp.str_loop]. change (1 / 10 =? 0) with true. cbv iota.
  unfold Pyotp.last_chars. cbn [String.length]. rewrite digits_onto_length.
  change (S (10 + String.length "") - 6)%nat with 5%nat.
  rewrite drop_string_cons.
  change (Spec.digits_onto 10 n "") with (Spec.digits_onto (6 + 4) n "").
  rewrite (digits_onto_split 4 6 n "").
  rewrite drop_digits_onto.
  unfold n. replace (10000000000 + r) with (10000 * 10 ^ Z.of_nat 6 + r)
    by (change (10 ^ Z.of_nat 6) with 1000000; lia).
  rewrite digits_onto_shift. reflexivity.
Qed.

(** ** The counter bytes *)

Lemma le_bytes_zero (k : nat) : Spec.le_bytes k 0 = repeat 0 k.
Proof. induction k; simpl; [reflexivity | now f_equal]. Qed.

Lemma low_bytes_zero (fuel : nat) : Pyotp.low_bytes fuel 0 = [].
Proof. destruct fuel; reflexivity. Qed.

(** With enough fuel the loop of [int_to_bytestring] yields the bytes of
    [i], least significant first, up to trailing zeros. *)
Lemma low_bytes_le_bytes (k fuel : nat) (i : Z) :
  0 <= i < 256 ^ Z.of_nat k -> i < 256 ^ Z.of_nat fuel ->
  Pyotp.low_bytes fuel i ++ repeat 0 (k - List.length (Pyotp.low_bytes fuel i))
  = Spec.le_bytes k i.
Proof.
  revert fuel i. induction k as [| k IH]; intros fuel i Hi Hf.
  - change (256 ^ Z.of_nat 0) with 1 in Hi.
    assert (i = 0) as -> by lia. rewrite low_bytes_zero. reflexivity.
  - destruct (Z.eq_dec i 0) as [-> | Hnz].
    + rewrite low_bytes_zero, le_bytes_zero. reflexivity.
    + destruct fuel as [| fuel];
        [change (256 ^ Z.of_nat 0) with 1 in Hf; lia|].
      rewrite !Nat2Z.inj_succ, !Z.pow_succ_r in * by lia.
      cbn [Pyotp.low_bytes Spec.le_bytes].
      destruct (Z.eqb_spec i 0) as [|_]; [contradiction|].
      cbn [List.length Nat.sub app]. f_equal.
      rewrite Z.shiftr_div_pow2 by lia. change (2 ^ 8) with 256.
      apply IH.
      * split; [apply Z.div_pos; lia | apply Z.div_lt_upper_bound; lia].
      * apply Z.div_lt_upper_bound; lia.
Qed.

Lemma be_bytes_snoc (k : nat) (i : Z) :
  SHA1.be_bytes (S k) i = SHA1.be_bytes k (Z.shiftr i 8) ++ [Z.land i 255].
Proof.
  induction k as [| k IH].
  - simpl. rewrite Z.shiftr_0_r. reflexivity.
  - change (SHA1.be_bytes (S (S k)) i)
      with (Z.land (Z.shiftr i (8 * Z.of_nat (S k))) 255 :: SHA1.be_bytes (S k) i).
    rewrite IH.
    change (SHA1.be_bytes (S k) (Z.shiftr i 8))
      with (Z.land (Z.shiftr (Z.shiftr i 8) (8 * Z.of_nat k)) 255
              :: SHA1.be_bytes k (Z.shiftr i 8)).
    rewrite Z.shiftr_shiftr by lia.
    replace (8 + 8 * Z.of_nat k) with (8 * Z.of_nat (S k)) by lia.
    reflexivity.
Qed.

Lemma be_bytes_rev_le_bytes (k : nat) (i : Z) :
  SHA1.be_bytes k i = rev (Spec.le_bytes k i).
Proof.
  revert i. induction k as [| k IH]; intros i; [reflexivity|].
  rewrite be_bytes_snoc, IH. reflexivity.
Qed.

Lemma rev_repeat_zero (n : nat) : rev (repeat 0 n) = repeat 0 n.
Proof.
  induction n as [| n IH]; [reflexivity|].
  simpl. rewrite IH. symmetry. apply repeat_cons.
Qed.

(** For a counter that fits in 64 bits, [int_to_bytestring] is the 8-byte
    big-endian serialization. *)
Lemma int_to_bytestring_be (i : Z) :
  0 <= i < 2 ^ 64 -> Pyotp.int_to_bytestring i = SHA1.be_bytes 8 i.
Proof.
  intros Hi. unfold Pyotp.int_to_bytestring, Pyotp.rjust.
  set (fuel := S (Z.to_nat (Z.log2 i))).
  rewrite length_rev, <- rev_repeat_zero, <- rev_app_distr.
  rewrite be_bytes_rev_le_bytes. f_equal.
  apply low_bytes_le_bytes.
  - change (256 ^ Z.of_nat 8) with (2 ^ 64). exact Hi.
  - destruct (Z.eq_dec i 0) as [-> | Hnz]; [reflexivity|].
    pose proof (Z.log2_nonneg i) as Hl.
    pose proof (Z.log2_spec i ltac:(lia)) as [_ Hs].
    unfold fuel. rewrite Nat2Z.inj_succ, Z2Nat.id by lia.
    change 256 with (2 ^ 8). rewrite <- Z.pow_mul_r by lia.
    eapply Z.lt_le_trans; [exact Hs|].
    apply Z.pow_le_mono_r; lia.
Qed.

(** ** Code generation *)

Lemma timecode_window (clock : Z) :
  0 <= clock -> Pyotp.timecode clock = Spec.time_window clock.
Proof.
  intros H. unfold Pyotp.timecode, Spec.time_window, Pyotp.interval.
  apply Z.quot_div_nonneg; lia.
Qed.

Lemma time_window_nonneg (clock : Z) : 0 <= clock -> 0 <= Spec.time_window clock.
Proof. intros H. unfold Spec.time_window. apply Z.div_pos; lia. Qed.

(** [generate_otp] never fails on a secret that decodes, and returns the
    six-digit numeral of the truncated value modulo one million. *)
Lemma generate_otp_spec (secret : string) (key : list Z) (input : Z) :
  Pyotp.byte_secret secret = Ok key -> 0 <= input ->
  Pyotp.generate_otp secret input =
  Ok (Spec.zero_padded 6
        (Spec.dynamic_truncation
           (HMAC.hmac_sha1 key (Pyotp.int_to_bytestring input)) mod 1000000)).
Proof.
  intros Hkey Hin. unfold Pyotp.generate_otp.
  destruct (Z.ltb_spec input 0) as [|_]; [lia|].
  rewrite Hkey. cbn [bind].
  rewrite truncate_spec by (apply hmac_sha1_length || apply hmac_sha1_bytes).
  cbn [bind]. f_equal.
  change (10 ^ Pyotp.digits) with 1000000.
  change (Z.to_nat Pyotp.digits) with 6%nat.
  apply str_code_slice. apply Z.mod_pos_bound. reflexivity.
Qed.

Lemma get_totp_ok (secret : string) (key : list Z) (clock : Z) :
  Pyotp.byte_secret secret = Ok key -> 0 <= clock ->
  TOTPManager.get_totp secret clock =
  Ok (Spec.zero_padded 6
        (Spec.dynamic_truncation
           (HMAC.hmac_sha1 key (Pyotp.int_to_bytestring (Spec.time_window clock)))
         mod 1000000)).
Proof.
  intros Hkey Hclock.
  unfold TOTPManager.get_totp, Pyotp.now. rewrite timecode_window by exact Hclock.
  apply generate_otp_spec; [exact Hkey | apply time_window_nonneg; exact Hclock].
Qed.

(** C7: for every secret that decodes to a key and every time of the clock,
    the code generated is a string of exactly six decimal digits, the
    zero-padded numeral of the dynamically truncated HMAC-SHA1 value modulo
    1,000,000.  (The key need not even be non-empty.) *)
Theorem get_totp_six_digits (secret : string) (key : list Z) (clock : Z) :
  Pyotp.byte_secret secret = Ok key -> 0 <= clock ->
  let value :=
    Spec.dynamic_truncation
      (HMAC.hmac_sha1 key (Pyotp.int_to_bytestring (Spec.time_window clock)))
      mod 1000000 in
  exists code,
    TOTPManager.get_totp secret clock = Ok code
    /\ String.length code = 6%nat
    /\ forall_string Main.is_digit code = true
    /\ Spec.decimal_value code = value
    /\ code = Spec.zero_padded 6 value.
Proof.
  intros Hkey Hclock value.
  exists (Spec.zero_padded 6 value).
  destruct (zero_padded_spec 6 value) as (Hlen & Hdig & Hval).
  repeat split; try assumption.
  - apply get_totp_ok; assumption.
  - rewrite Hval. apply Z.mod_small. change (10 ^ Z.of_nat 6) with 1000000.
    apply Z.mod_pos_bound. reflexivity.
Qed.

Lemma get_totp_six_digits_witness :
  exists code,
    TOTPManager.get_totp "JBSWY3DP" 59 = Ok code
    /\ String.length code = 6%nat
    /\ forall_string Main.is_digit code = true
    /\ Spec.decimal_value code =
       Spec.dynamic_truncation
         (HMAC.hmac_sha1 [72; 101; 108; 108; 111]
            (Pyotp.int_to_bytestring (Spec.time_window 59))) mod 1000000
    /\ code =
       Spec.zero_padded 6
         (Spec.dynamic_truncation
            (HMAC.hmac_sha1 [72; 101; 108; 108; 111]
               (Pyotp.int_to_bytestring (Spec.time_window 59))) mod 1000000).
Proof.
  apply (get_totp_six_digits "JBSWY3DP" [72; 101; 108; 108; 111] 59).
  - vm_compute. reflexivity.
  - lia.
Defined.

(** C8: the code depends only on the key bytes and on the 30-second
    window: two calls whose secrets decode alike and whose (non-negative)
    Unix times have the same [floor(t / 30)] give the same result, and that
    result is a code whenever the secret decodes. *)
Theorem get_totp_same_window (s1 s2 : string) (t1 t2 : Z) :
  0 <= t1 -> 0 <= t2 ->
  Pyotp.byte_secret s1 = Pyotp.byte_secret s2 ->
  Spec.time_window t1 = Spec.time_window t2 ->
  TOTPManager.get_totp s1 t1 = TOTPManager.get_totp s2 t2
  /\ (forall key, Pyotp.byte_secret s1 = Ok key ->
      exists code, TOTPManager.get_totp s1 t1 = Ok code).
Proof.
  intros H1 H2 Hs Hw. split.
  - unfold TOTPManager.get_totp, Pyotp.now.
    rewrite !timecode_window, Hw by assumption.
    unfold Pyotp.generate_otp. rewrite Hs. reflexivity.
  - intros key Hkey. eexists. apply get_totp_ok; eassumption.
Qed.

Lemma get_totp_same_window_witness :
  TOTPManager.get_totp "mfrgg" 30 = TOTPManager.get_totp "MFRGG===" 59
  /\ (forall key, Pyotp.byte_secret "mfrgg" = Ok key ->
      exists code, TOTPManager.get_totp "mfrgg" 30 = Ok code).
Proof.
  apply (get_totp_same_window "mfrgg" "MFRGG===" 30 59).
  - lia.
  - lia.
  - vm_compute. reflexivity.
  - reflexivity.
Defined.

(** ** The store *)

Lemma has_email_iff (email : string) (r : Sql.row) :
  Sql.has_email email r = true <-> Sql.row_email r = email.
Proof. unfold Sql.has_email. apply String.eqb_eq. Qed.

Lemma existsb_present (d : Sql.db) (email : string) :
  existsb (Sql.has_email email) (Sql.rows d) = true <-> Spec.present email d.
Proof.
  unfold Spec.present, Spec.emails. rewrite existsb_exists, in_map_iff.
  split; intros (r & H1 & H2).
  - exists r. split; [apply has_email_iff|]; assumption.
  - exists r. split; [|apply has_email_iff]; assumption.
Qed.

Lemma existsb_absent (d : Sql.db) (email : string) :
  ~ Spec.present email d -> existsb (Sql.has_email email) (Sql.rows d) = false.
Proof.
  intros H. destruct (existsb _ _) eqn:E; [|reflexivity].
  apply existsb_present in E. contradiction.
Qed.

Lemma filter_absent (l : list Sql.row) (email : string) :
  ~ In email (map Sql.row_email l) -> filter (Sql.has_email email) l = [].
Proof.
  induction l as [| r l IH]; intros H; [reflexivity|].
  simpl in *. destruct (Sql.has_email email r) eqn:E.
  - apply has_email_iff in E. tauto.
  - apply IH. tauto.
Qed.

Lemma filter_unique (l : list Sql.row) (email : string) :
  NoDup (map Sql.row_email l) -> In email (map Sql.row_email l) ->
  List.length (filter (Sql.has_email email) l) = 1%nat.
Proof.
  induction l as [| r l IH]; intros Hnd Hin; [contradiction|].
  simpl in *. inversion Hnd as [| ? ? Hnotin Hnd']; subst.
  destruct (Sql.has_email email r) eqn:E.
  - apply has_email_iff in E. subst email.
    rewrite filter_absent by exact Hnotin. reflexivity.
  - apply IH; [exact Hnd'|]. destruct Hin as [Hin | Hin]; [|exact Hin].
    apply has_email_iff in Hin. congruence.
Qed.

Lemma find_filter_other (l : list Sql.row) (email other : string) :
  other <> email ->
  find (Sql.has_email other) (filter (fun r => negb (Sql.has_email email r)) l)
  = find (Sql.has_email other) l.
Proof.
  intros Hne. induction l as [| r l IH]; [reflexivity|].
  simpl. destruct (Sql.has_email email r) eqn:E; simpl.
  - apply has_email_iff in E.
    destruct (Sql.has_email other r) eqn:F; [|exact IH].
    apply has_email_iff in F. congruence.
  - rewrite IH. reflexivity.
Qed.

(** Base32 decoding raises one of three exceptions, none of them
    [sqlite3.IntegrityError]. *)
Lemma decode_quanta_raises (n : nat) (s : string) (decoded : list Z) (acc : Z) (e : exn) :
  Base32.decode_quanta n s decoded acc = Raise e -> e = BinasciiError_digit.
Proof.
  revert s decoded acc. induction n as [| n IH]; intros s decoded acc H;
    [discriminate|].
  cbn [Base32.decode_quanta] in H.
  destruct (Base32.quantum_acc (substring 0 8 s) 0) as [a | e'] eqn:E.
  - cbn [bind] in H. eapply IH. exact H.
  - cbn [bind] in H. injection H as <-. clear IH.
    generalize dependent 0. generalize (substring 0 8 s) as q.
    induction q as [| c q IHq]; intros z Hz; [discriminate|].
    cbn [Base32.quantum_acc] in Hz. destruct (Base32.b32rev c).
    + eapply IHq. exact Hz.
    + congruence.
Qed.

Lemma byte_secret_raises (s : string) (e : exn) :
  Pyotp.byte_secret s = Raise e ->
  e = ValueError_not_ascii \/ e = BinasciiError_padding \/ e = BinasciiError_digit.
Proof.
  unfold Pyotp.byte_secret. generalize (if negb (len s mod 8 =? 0)
    then (s ++ repeat_char "=" (Z.to_nat (8 - len s mod 8)))%string else s) as p.
  intros p. unfold Base32.b32decode.
  destruct (negb (forall_string Base32.is_ascii_char p)); [intros [= <-]; auto|].
  destruct (negb (len p mod 8 =? 0)); [intros [= <-]; auto|].
  destruct (Base32.decode_quanta _ _ _ _) as [[decoded acc] | e'] eqn:E.
  - cbn [bind].
    destruct (_ || _); [intros [= <-]; auto|].
    destruct (_ && _); discriminate.
  - cbn [bind]. intros [= <-]. apply decode_quanta_raises in E. auto.
Qed.

Lemma now_raises (s : string) (e : exn) (clock : Z) :
  Pyotp.byte_secret s = Raise e -> 0 <= clock -> Pyotp.now s clock = Raise e.
Proof.
  intros Hs Hc. unfold Pyotp.now, Pyotp.generate_otp.
  rewrite timecode_window by exact Hc.
  pose proof (time_window_nonneg clock Hc).
  destruct (Z.ltb_spec (Spec.time_window clock) 0) as [|_]; [lia|].
  rewrite Hs. reflexivity.
Qed.

Lemma now_ok (s : string) (key : list Z) (clock : Z) :
  Pyotp.byte_secret s = Ok key -> 0 <= clock ->
  exists code, Pyotp.now s clock = Ok code.
Proof.
  intros Hs Hc. eexists. apply (get_totp_ok s key clock Hs Hc).
Qed.

(** [add_secret] with a secret that fails to decode. *)
Lemma add_secret_undecodable (d : Sql.db) (email raw : string) (clock : Z) (e : exn) :
  Pyotp.byte_secret (TOTPManager.normalize raw) = Raise e -> 0 <= clock ->
  TOTPManager.add_secret d email raw clock =
  TOTPManager.mkoutcome d (MsgInvalidFormat e) false.
Proof.
  intros Hs Hc. unfold TOTPManager.add_secret, TOTPManager.add_secret_try.
  rewrite (now_raises _ e clock Hs Hc). cbn [bind].
  destruct (byte_secret_raises _ _ Hs) as [-> | [-> | ->]]; reflexivity.
Qed.

(** [add_secret] with a secret that decodes, on an identity already
    stored. *)
Lemma add_secret_present (d : Sql.db) (email raw : string) (key : list Z) (clock : Z) :
  Pyotp.byte_secret (TOTPManager.normalize raw) = Ok key -> 0 <= clock ->
  Spec.present email d ->
  TOTPManager.add_secret d email raw clock =
  TOTPManager.mkoutcome d (MsgAlreadyExists email) false.
Proof.
  intros Hs Hc Hp. unfold TOTPManager.add_secret, TOTPManager.add_secret_try.
  destruct (now_ok _ key clock Hs Hc) as [code ->]. cbn [bind].
  unfold Sql.insert. apply existsb_present in Hp. rewrite Hp. reflexivity.
Qed.

(** [add_secret] with a secret that decodes, on a new identity. *)
Lemma add_secret_absent (d : Sql.db) (email raw : string) (key : list Z) (clock : Z) :
  Pyotp.byte_secret (TOTPManager.normalize raw) = Ok key -> 0 <= clock ->
  ~ Spec.present email d ->
  TOTPManager.add_secret d email raw clock =
  TOTPManager.mkoutcome
    (Sql.mkdb (Sql.rows d ++
                 [Sql.mkrow (Sql.seq d + 1) email (TOTPManager.normalize raw) clock clock])
              (Sql.seq d + 1))
    (MsgAdded email) true.
Proof.
  intros Hs Hc Hp. unfold TOTPManager.add_secret, TOTPManager.add_secret_try.
  destruct (now_ok _ key clock Hs Hc) as [code ->]. cbn [bind].
  unfold Sql.insert. rewrite (existsb_absent d email Hp). reflexivity.
Qed.

(** C3 as stated fails: a raw secret of one space normalizes to the empty
    string, which decodes to zero bytes; [add_secret] does not reject it: a
    code is generated from the empty key and the row is inserted. *)
Lemma add_secret_accepts_empty_secret :
  TOTPManager.normalize " " = ""
  /\ Pyotp.byte_secret (TOTPManager.normalize " ") = Ok []
  /\ Pyotp.now (TOTPManager.normalize " ") 59 = Ok "812658"
  /\ TOTPManager.add_secret Sql.empty "a@b.c" " " 59 =
     TOTPManager.mkoutcome (Sql.mkdb [Sql.mkrow 1 "a@b.c" "" 59 59] 1)
       (MsgAdded "a@b.c") true.
Proof.
  vm_compute. repeat split.
Qed.

(** C3, amended: a raw secret whose normalized form fails Base32 decoding
    makes [add_secret] fail with the invalid-format error and leaves the
    store as it was.  A raw secret whose normalized form is empty decodes
    to zero bytes and is not rejected: a code is generated from the empty
    key, and the entry is inserted when the identity is new (the
    already-exists error is reported otherwise). *)
Theorem add_secret_validation (d : Sql.db) (email raw : string) (clock : Z) :
  0 <= clock ->
  (forall e, Pyotp.byte_secret (TOTPManager.normalize raw) = Raise e ->
     Pyotp.now (TOTPManager.normalize raw) clock = Raise e
     /\ TOTPManager.add_secret d email raw clock =
        TOTPManager.mkoutcome d (MsgInvalidFormat e) false)
  /\ (TOTPManager.normalize raw = "" ->
      Pyotp.byte_secret (TOTPManager.normalize raw) = Ok [])
  /\ (Pyotp.byte_secret (TOTPManager.normalize raw) = Ok [] ->
      (exists code, Pyotp.now (TOTPManager.normalize raw) clock = Ok code)
      /\ (~ Spec.present email d ->
          TOTPManager.add_secret d email raw clock =
          TOTPManager.mkoutcome
            (Sql.mkdb (Sql.rows d ++
               [Sql.mkrow (Sql.seq d + 1) email (TOTPManager.normalize raw) clock clock])
               (Sql.seq d + 1))
            (MsgAdded email) true)
      /\ (Spec.present email d ->
          TOTPManager.add_secret d email raw clock =
          TOTPManager.mkoutcome d (MsgAlreadyExists email) false)).
Proof.
  intros Hc. split; [|split].
  - intros e He. split; [apply now_raises | apply add_secret_undecodable]; assumption.
  - intros ->. reflexivity.
  - intros Hk. split; [|split].
    + apply (now_ok _ [] clock Hk Hc).
    + intros Hp. apply (add_secret_absent d email raw [] clock Hk Hc Hp).
    + intros Hp. apply (add_secret_present d email raw [] clock Hk Hc Hp).
Qed.

Lemma add_secret_validation_witness :
  Pyotp.now (TOTPManager.normalize "a1") 59 = Raise BinasciiError_digit
  /\ TOTPManager.add_secret example_db "new@x.org" "a1" 59 =
     TOTPManager.mkoutcome example_db (MsgInvalidFormat BinasciiError_digit) false.
Proof.
  apply (add_secret_validation example_db "new@x.org" "a1" 59).
  - lia.
  - vm_compute. reflexivity.
Defined.

(** C5: when the identity is already stored, [add_secret] with any secret
    that passes validation reports the already-exists error and leaves the
    store unchanged, the stored secret of that identity included. *)
Theorem add_secret_existing_identity
  (d : Sql.db) (email raw : string) (key : list Z) (clock : Z) :
  Spec.present email d ->
  Pyotp.byte_secret (TOTPManager.normalize raw) = Ok key ->
  0 <= clock ->
  let o := TOTPManager.add_secret d email raw clock in
  o = TOTPManager.mkoutcome d (MsgAlreadyExists email) false
  /\ TOTPManager.store o = d
  /\ Spec.secret_of (TOTPManager.store o) email = Spec.secret_of d email.
Proof.
  intros Hp Hk Hc o. unfold o.
  rewrite (add_secret_present d email raw key clock Hk Hc Hp).
  repeat split.
Qed.

Lemma add_secret_existing_identity_witness :
  let o := TOTPManager.add_secret example_db "bob@x.org" "mf rgg" 100 in
  o = TOTPManager.mkoutcome example_db (MsgAlreadyExists "bob@x.org") false
  /\ TOTPManager.store o = example_db
  /\ Spec.secret_of (TOTPManager.store o) "bob@x.org" =
     Spec.secret_of example_db "bob@x.org".
Proof.
  apply (add_secret_existing_identity example_db "bob@x.org" "mf rgg" [97; 98; 99] 100).
  - left. reflexivity.
  - vm_compute. reflexivity.
  - lia.
Defined.

(** C6: when the identity is not stored, [update_secret] with any secret
    that passes validation reports the not-found error and leaves the store
    unchanged; no entry is created for that identity. *)
Theorem update_secret_missing_identity
  (d : Sql.db) (email raw : string) (key : list Z) (clock : Z) :
  ~ Spec.present email d ->
  Pyotp.byte_secret (TOTPManager.normalize raw) = Ok key ->
  0 <= clock ->
  let o := TOTPManager.update_secret d email raw clock in
  o = TOTPManager.mkoutcome d (MsgNotFound email) false
  /\ TOTPManager.store o = d
  /\ ~ Spec.present email (TOTPManager.store o).
Proof.
  intros Hp Hk Hc o.
  assert (o = TOTPManager.mkoutcome d (MsgNotFound email) false) as ->.
  { unfold o, TOTPManager.update_secret.
    destruct (now_ok _ key clock Hk Hc) as [code ->].
    unfold Sql.update. rewrite (filter_absent (Sql.rows d) email Hp). reflexivity. }
  repeat split. exact Hp.
Qed.

Lemma update_secret_missing_identity_witness :
  let o := TOTPManager.update_secret example_db "carol@x.org" "mf rgg" 100 in
  o = TOTPManager.mkoutcome example_db (MsgNotFound "carol@x.org") false
  /\ TOTPManager.store o = example_db
  /\ ~ Spec.present "carol@x.org" (TOTPManager.store o).
Proof.
  apply (update_secret_missing_identity example_db "carol@x.org" "mf rgg" [97; 98; 99] 100).
  - intros [H | [H | [H | []]]]; discriminate H.
  - vm_compute. reflexivity.
  - lia.
Defined.

(** C10: deleting a stored identity succeeds and removes exactly that one
    row: the identity is gone, every row of another identity is kept as it
    was (in the same order), so every other identity keeps its secret. *)
Theorem delete_secret_frame (d : Sql.db) (email : string) :
  Spec.unique_emails d ->
  Spec.present email d ->
  let o := TOTPManager.delete_secret d email in
  TOTPManager.returned o = true
  /\ TOTPManager.printed o = MsgDeleted email
  /\ ~ Spec.present email (TOTPManager.store o)
  /\ List.length (Sql.rows d) = S (List.length (Sql.rows (TOTPManager.store o)))
  /\ Sql.rows (TOTPManager.store o) =
     filter (fun r => negb (String.eqb (Sql.row_email r) email)) (Sql.rows d)
  /\ (forall r, Sql.row_email r <> email ->
        (In r (Sql.rows (TOTPManager.store o)) <-> In r (Sql.rows d)))
  /\ (forall other, other <> email ->
        Spec.secret_of (TOTPManager.store o) other = Spec.secret_of d other).
Proof.
  intros Hu Hp o.
  pose proof (filter_unique (Sql.rows d) email Hu Hp) as Hone.
  assert (o = TOTPManager.mkoutcome
                (Sql.mkdb (filter (fun r => negb (Sql.has_email email r)) (Sql.rows d))
                          (Sql.seq d))
                (MsgDeleted email) true) as ->.
  { unfold o, TOTPManager.delete_secret, Sql.delete. rewrite Hone. reflexivity. }
  cbn [TOTPManager.returned TOTPManager.printed TOTPManager.store Sql.rows].
  repeat split.
  - unfold Spec.present, Spec.emails. cbn [Sql.rows].
    rewrite in_map_iff. intros (r & Hr & Hin). apply filter_In in Hin.
    destruct Hin as [_ Hin]. apply has_email_iff in Hr. rewrite Hr in Hin.
    discriminate.
  - rewrite <- (filter_length (Sql.has_email email) (Sql.rows d)), Hone.
    reflexivity.
  - intros Hin. apply filter_In in Hin. tauto.
  - intros Hin. apply filter_In. split; [exact Hin|].
    destruct (Sql.has_email email r) eqn:E; [|reflexivity].
    apply has_email_iff in E. contradiction.
  - intros other Hne. unfold Spec.secret_of. cbn [Sql.rows].
    rewrite find_filter_other by exact Hne. reflexivity.
Qed.

Lemma delete_secret_frame_witness :
  let o := TOTPManager.delete_secret example_db "bob@x.org" in
  TOTPManager.returned o = true
  /\ TOTPManager.printed o = MsgDeleted "bob@x.org"
  /\ ~ Spec.present "bob@x.org" (TOTPManager.store o)
  /\ List.length (Sql.rows example_db) = S (List.length (Sql.rows (TOTPManager.store o)))
  /\ Sql.rows (TOTPManager.store o) =
     filter (fun r => negb (String.eqb (Sql.row_email r) "bob@x.org"))
       (Sql.rows example_db)
  /\ (forall r, Sql.row_email r <> "bob@x.org" ->
        (In r (Sql.rows (TOTPManager.store o)) <-> In r (Sql.rows example_db)))
  /\ (forall other, other <> "bob@x.org" ->
        Spec.secret_of (TOTPManager.store o) other = Spec.secret_of example_db other).
Proof.
  apply (delete_secret_frame example_db "bob@x.org").
  - unfold Spec.unique_emails. simpl.
    repeat constructor; simpl; intros H;
      repeat (destruct H as [H | H]; [discriminate H|]); exact H.
  - left. reflexivity.
Defined.

(** The UNIQUE constraint holds on the empty table and is kept by every
    method that writes. *)
Lemma unique_emails_invariant :
  Spec.unique_emails Sql.empty
  /\ (forall d email raw clock,
        Spec.unique_emails d ->
        Spec.unique_emails (TOTPManager.store (TOTPManager.add_secret d email raw clock)))
  /\ (forall d email raw clock,
        Spec.unique_emails d ->
        Spec.unique_emails (TOTPManager.store (TOTPManager.update_secret d email raw clock)))
  /\ (forall d email,
        Spec.unique_emails d ->
        Spec.unique_emails (TOTPManager.store (TOTPManager.delete_secret d email))).
Proof.
  unfold Spec.unique_emails, Spec.emails. repeat split.
  - constructor.
  - intros d email raw clock Hu.
    unfold TOTPManager.add_secret, TOTPManager.add_secret_try.
    destruct (Pyotp.now _ _) as [code | e]; cbn [bind].
    + unfold Sql.insert. destruct (existsb _ _) eqn:E; [exact Hu|].
      cbn [TOTPManager.store Sql.rows]. rewrite map_app. cbn [map].
      apply NoDup_app_remove_l with (l := []). cbn [app].
      apply (Permutation_NoDup (l := email :: map Sql.row_email (Sql.rows d))).
      * apply Permutation_cons_append.
      * constructor; [|exact Hu].
        intros Hin. apply (existsb_present d email) in Hin. congruence.
    + destruct e; exact Hu.
  - intros d email raw clock Hu. unfold TOTPManager.update_secret.
    destruct (Pyotp.now _ _) as [code | e]; [|exact Hu].
    unfold Sql.update. destruct (_ =? 0); [exact Hu|].
    cbn [TOTPManager.store Sql.rows]. rewrite map_map.
    erewrite map_ext; [exact Hu|].
    intros r. destruct (Sql.has_email email r); reflexivity.
  - intros d email Hu. unfold TOTPManager.delete_secret, Sql.delete.
    destruct (_ =? 0); [exact Hu|]. cbn [TOTPManager.store Sql.rows].
    induction (Sql.rows d) as [| r l IH]; [constructor|].
    cbn [map filter] in *. inversion Hu as [| ? ? Hnotin Hnd]; subst.
    destruct (negb (Sql.has_email email r)); [|apply IH; exact Hnd].
    cbn [map]. constructor; [|apply IH; exact Hnd].
    intros Hin. apply Hnotin. apply in_map_iff in Hin.
    destruct Hin as (x & Hx & Hin). apply filter_In in Hin.
    apply in_map_iff. exists x. tauto.
Qed.

(** ** Search *)

Lemma like_percent_all (s : string) : Sql.like "%" s = true.
Proof.
  induction s as [| c s IH]; [reflexivity|].
  change (Sql.like "%" (String c s)) with (false || Sql.like "%" s). exact IH.
Qed.

Lemma like_percent_nil (p : string) :
  Sql.like (String "%" p) "" = Sql.like p "".
Proof. cbn. apply orb_false_r. Qed.

Lemma like_percent_cons (p : string) (c : ascii) (s : string) :
  Sql.like (String "%" p) (String c s) =
  Sql.like p (String c s) || Sql.like (String "%" p) s.
Proof. reflexivity. Qed.

(** Off the wildcard [_], a pattern character matches exactly the
    characters equal to it up to ASCII case. *)
Lemma like_char_nocase (c d : ascii) :
  Sql.is_underscore c = false ->
  Sql.like_char c d = Ascii.eqb (lower_char c) (lower_char d).
Proof.
  intros Hu. unfold Sql.like_char. rewrite Hu, orb_false_r.
  destruct (Ascii.eqb_spec (lower_char c) (lower_char d)) as [E | E].
  - destruct (Ascii.eqb_spec c d) as [| Hne]; [reflexivity|]. cbn [orb andb].
    assert (ord (lower_char c) = ord (lower_char d)) as Ho by congruence.
    rewrite !ord_lower_char in Ho.
    pose proof (ord_range c). pose proof (ord_range d).
    unfold Base32.is_ascii_char.
    destruct (Z.ltb_spec (ord c) 128), (Z.ltb_spec (ord d) 128); try reflexivity;
      exfalso; apply Hne; apply ord_inj;
      destruct (is_upper c) eqn:Uc, (is_upper d) eqn:Ud;
      try apply is_upper_iff in Uc; try apply is_upper_iff in Ud; lia.
  - destruct (Ascii.eqb_spec c d) as [-> | _]; [contradiction|]. reflexivity.
Qed.



Lemma prefix_nocase_iff (term s : string) :
  Spec.prefix_nocase term s = true <->
  exists mid post, s = (mid ++ post)%string /\ Spec.eq_nocase term mid.
Proof.
  revert s. induction term as [| c term IH]; intros s.
  - split; [|reflexivity]. intros _. exists "", s. split; reflexivity.
  - destruct s as [| d s]; cbn [Spec.prefix_nocase].
    + split; [discriminate|]. intros (mid & post & Hs & He).
      destruct mid; [contradiction | discriminate].
    + rewrite andb_true_iff, Ascii.eqb_eq, IH. split.
      * intros (Hcd & mid & post & -> & He).
        exists (String d mid), post. split; [reflexivity | split; assumption].
      * intros (mid & post & Hs & He). destruct mid as [| d' mid]; [contradiction|].
        cbn in Hs. injection Hs as <- ->. destruct He as [Hcd He].
        split; [exact Hcd|]. exists mid, post. split; [reflexivity | exact He].
Qed.

Lemma occurs_nocase_iff (term s : string) :
  Spec.occurs_nocase term s = true <-> Spec.contains_nocase term s.
Proof.
  unfold Spec.contains_nocase. induction s as [| c s IH]; cbn [Spec.occurs_nocase].
  - rewrite orb_false_r, prefix_nocase_iff. split.
    + intros (mid & post & Hs & He). exists "", mid, post. auto.
    + intros (pre & mid & post & Hs & He). destruct pre; [|discriminate].
      exists mid, post. auto.
  - rewrite orb_true_iff, prefix_nocase_iff, IH. split.
    + intros [(mid & post & Hs & He) | (pre & mid & post & Hs & He)].
      * exists "", mid, post. auto.
      * exists (String c pre), mid, post. rewrite Hs. auto.
    + intros (pre & mid & post & Hs & He). destruct pre as [| c' pre].
      * left. exists mid, post. auto.
      * right. cbn in Hs. injection Hs as _ ->. exists pre, mid, post. auto.
Qed.

Lemma insert_sorted_perm (r : Sql.row) (l : list Sql.row) :
  Permutation (Sql.insert_sorted r l) (r :: l).
Proof.
  induction l as [| x l IH]; [reflexivity|].
  cbn [Sql.insert_sorted]. destruct (Sql.email_le r x); [reflexivity|].
  rewrite IH. apply perm_swap.
Qed.

Lemma order_by_email_perm (l : list Sql.row) : Permutation (Sql.order_by_email l) l.
Proof.
  induction l as [| r l IH]; [reflexivity|].
  cbn [Sql.order_by_email fold_right]. fold (Sql.order_by_email l).
  rewrite insert_sorted_perm, IH. reflexivity.
Qed.

Lemma insert_sorted_ordered (r : Sql.row) (l : list Sql.row) :
  Spec.ordered_by_email l -> Spec.ordered_by_email (Sql.insert_sorted r l).
Proof.
  unfold Spec.ordered_by_email. induction l as [| x l IH]; intros Hs.
  - repeat constructor.
  - cbn [Sql.insert_sorted]. destruct (Sql.email_le r x) eqn:E.
    + constructor; [exact Hs | constructor; exact E].
    + inversion Hs as [| ? ? Hs' Hhd]; subst.
      constructor; [apply IH; exact Hs'|].
      assert (Sql.email_le x r = true) as Hxr.
      { unfold Sql.email_le in *.
        destruct (String.leb_total (Sql.row_email r) (Sql.row_email x)); congruence. }
      destruct l as [| y l]; cbn [Sql.insert_sorted].
      * constructor. exact Hxr.
      * destruct (Sql.email_le r y); constructor; [exact Hxr|].
        inversion Hhd; assumption.
Qed.

Lemma order_by_email_ordered (l : list Sql.row) :
  Spec.ordered_by_email (Sql.order_by_email l).
Proof.
  induction l as [| r l IH]; [constructor|].
  cbn [Sql.order_by_email fold_right]. apply insert_sorted_ordered. exact IH.
Qed.


Lemma search_emails_empty_term (d : Sql.db) :
  TOTPManager.search_emails d "" = TOTPManager.get_all_emails d.
Proof.
  unfold TOTPManager.search_emails, TOTPManager.get_all_emails,
    Sql.select_like, Sql.select_all.
  do 2 f_equal. induction (Sql.rows d) as [| r l IH]; [reflexivity|].
  cbn [filter]. change ("%" ++ "" ++ "%")%string with (String "%" "%") in *.
  assert (Sql.like (String "%" "%") (Sql.row_email r) = true) as ->.
  { generalize (Sql.row_email r) as s. induction s as [| c s IHs]; [reflexivity|].
    rewrite like_percent_cons, like_percent_all. reflexivity. }
  f_equal. exact IH.
Qed.

(** C4 at a term holding the wildcard [_]: searching "l_i" in the example
    store returns the row of "alXice@x.org", an identity in which "l_i"
    does not occur (the documented behaviour is to return the emails
    containing the search term). *)
Theorem search_emails_underscore_wildcard :
  TOTPManager.search_emails example_db "l_i" =
    [(3, "alXice@x.org", "MFRGG");
     (2, "al_ice@x.org", "GEZDGNBVGY3TQOJQGEZDGNBVGY3TQOJQ")]
  /\ ~ Spec.contains_nocase "l_i" "alXice@x.org".
Proof.
  split.
  - vm_compute. reflexivity.
  - intros H. apply occurs_nocase_iff in H. vm_compute in H. discriminate H.
Qed.

(** ** The [get] command *)

Lemma run_Output (m : message) (k : Main.prog) (clock : Z) (stdin : list string) :
  Main.run (Main.Output m k) clock stdin =
  (Main.Printed m :: fst (Main.run k clock stdin), snd (Main.run k clock stdin)).
Proof. cbn [Main.run]. destruct (Main.run k clock stdin). reflexivity. Qed.

Lemma run_GetTotp (secret : string) (k : result string -> Main.prog)
  (clock : Z) (stdin : list string) :
  Main.run (Main.GetTotp secret k) clock stdin =
  let r := TOTPManager.get_totp secret clock in
  (Main.Generated secret r :: fst (Main.run (k r) clock stdin),
   snd (Main.run (k r) clock stdin)).
Proof.
  cbn [Main.run]. destruct (Main.run (k _) clock stdin). reflexivity.
Qed.

Lemma run_Input (k : option string -> Main.prog) (clock : Z) (stdin : list string) :
  exists rest fin, Main.run (Main.Input k) clock stdin = (Main.Prompted :: rest, fin).
Proof.
  cbn [Main.run]. destruct stdin as [| line stdin].
  - destruct (Main.run (k None) clock []) as [rest fin]. eauto.
  - destruct (Main.run (k (Some line)) clock stdin) as [rest fin]. eauto.
Qed.

Lemma run_print_items (idx : Z) (results : list (Z * string * string))
  (k : Main.prog) (clock : Z) (stdin : list string) :
  Main.run (Main.print_items idx results k) clock stdin =
  (map Main.Printed (Spec.numbered idx results) ++ fst (Main.run k clock stdin),
   snd (Main.run k clock stdin)).
Proof.
  revert idx. induction results as [| [[id email] secret] results IH]; intros idx.
  - cbn. destruct (Main.run k clock stdin). reflexivity.
  - cbn [Main.print_items Spec.numbered map app]. rewrite run_Output, IH. reflexivity.
Qed.

Lemma generated_before_prompt_printed (ms : list message) (rest : list Main.event) :
  Spec.generated_before_prompt (map Main.Printed ms ++ Main.Prompted :: rest) = [].
Proof. induction ms as [| m ms IH]; [reflexivity | exact IH]. Qed.

(** C9: [get] generates a code before any prompt exactly when the search
    has exactly one match, and then from that match's secret; with no match
    it reports that nothing was found and exits with status 1; with two or
    more matches it prints the candidate list and prompts for a selection,
    no code having been generated. *)
Theorem get_command_cases (d : Sql.db) (term : string) (clock : Z) (stdin : list string) :
  let results := TOTPManager.search_emails d term in
  let evs := fst (Main.run (Main.get_command d term) clock stdin) in
  let fin := snd (Main.run (Main.get_command d term) clock stdin) in
  (results = [] ->
     evs = [Main.Printed (MsgNoEmailsFound term)] /\ fin = Main.Exited 1)
  /\ (forall id email secret, results = [(id, email, secret)] ->
        Spec.generated_before_prompt evs = [secret]
        /\ hd_error evs =
           Some (Main.Generated secret (TOTPManager.get_totp secret clock))
        /\ (forall code, TOTPManager.get_totp secret clock = Ok code ->
              evs = [Main.Generated secret (Ok code);
                     Main.Printed (MsgCodeFor email);
                     Main.Printed (MsgCode code)]
              /\ fin = Main.Exited 0))
  /\ ((2 <= List.length results)%nat ->
        Spec.generated_before_prompt evs = []
        /\ exists rest,
             evs = map Main.Printed (Spec.candidate_list results)
                     ++ Main.Prompted :: rest)
  /\ (Spec.generated_before_prompt evs <> [] <-> List.length results = 1%nat).
Proof.
  intros results evs fin. unfold evs, fin, Main.get_command. fold results.
  destruct results as [| [[id email] secret] [| r2 more]] eqn:E.
  - cbn. split; [intros _; split; reflexivity|].
    split; [intros id' email' secret' H; discriminate H|].
    split; [intros H; lia|].
    split; [intros H; contradiction | intros H; discriminate H].
  - cbn [List.length Nat.eqb]. rewrite run_GetTotp. cbn zeta. cbn [fst snd].
    split; [intros H; discriminate H|].
    split.
    { intros id' email' secret' [= <- <- <-].
      split; [|split].
      - destruct (TOTPManager.get_totp secret clock) as [code | e]; reflexivity.
      - reflexivity.
      - intros code ->. split; reflexivity. }
    split; [intros H; lia|].
    split; [reflexivity | intros _; discriminate].
  - cbn [List.length Nat.eqb].
    unfold Main.display_results.
    rewrite !run_Output, run_print_items, run_Output. cbn [fst snd].
    match goal with
    | |- context [Main.run (Main.Input ?k) clock stdin] =>
        destruct (run_Input k clock stdin) as (rest & fin' & ->)
    end.
    cbn [fst snd].
    assert (forall l : list Main.event,
              Main.Printed MsgFoundEmails :: Main.Printed MsgRule ::
                map Main.Printed (Spec.numbered 1 ((id, email, secret) :: r2 :: more))
                ++ Main.Printed MsgRule :: l
              = map Main.Printed
                  (Spec.candidate_list ((id, email, secret) :: r2 :: more)) ++ l) as Hshape.
    { intros l. unfold Spec.candidate_list. cbn [map app].
      rewrite map_app, <- app_assoc. reflexivity. }
    rewrite Hshape, generated_before_prompt_printed.
    split; [discriminate|]. split; [discriminate|].
    split; [intros _; split; [reflexivity | exists rest; reflexivity]|].
    split; [intros H; contradiction | discriminate].
Qed.

Lemma get_command_cases_witness :
  Spec.generated_before_prompt
    (fst (Main.run (Main.get_command example_db "bob") 59 [])) = ["JBSWY3DP"].
Proof.
  apply (get_command_cases example_db "bob" 59 [] ) with (id := 1) (email := "bob@x.org").
  vm_compute. reflexivity.
Defined.

(** * Further properties of the manager *)

(** ** Normal forms *)

Lemma normalize_clean (s : string) :
  forall_string (fun c => negb (Spec.is_space_char c) && negb (is_lower c))
    (TOTPManager.normalize s) = true.
Proof.
  induction s as [| c s IH]; [reflexivity|].
  rewrite normalize_cons. destruct (Spec.is_space_char c) eqn:E; [exact IH|].
  cbn [forall_string]. destruct (upper_char_clean c E) as [-> ->]. exact IH.
Qed.

Lemma normalize_fixed (s : string) :
  forall_string (fun c => negb (Spec.is_space_char c) && negb (is_lower c)) s = true ->
  TOTPManager.normalize s = s.
Proof.
  induction s as [| c s IH]; intros H; [reflexivity|].
  cbn [forall_string] in H. apply andb_true_iff in H. destruct H as [Hc Hs].
  apply andb_true_iff in Hc. destruct Hc as [Hsp Hlo].
  apply negb_true_iff in Hsp, Hlo.
  rewrite normalize_cons, Hsp. unfold upper_char. rewrite Hlo, (IH Hs). reflexivity.
Qed.

(** Normalizing twice is normalizing once: a secret read back from the
    store and given to [add_secret] or [update_secret] again is stored
    unchanged. *)
Theorem normalize_idempotent (s : string) :
  TOTPManager.normalize (TOTPManager.normalize s) = TOTPManager.normalize s.
Proof. apply normalize_fixed. apply normalize_clean. Qed.

(** ** When the writing methods succeed *)

Lemma present_dec (email : string) (d : Sql.db) :
  {Spec.present email d} + {~ Spec.present email d}.
Proof. apply in_dec. apply string_dec. Qed.

Lemma now_ok_decodes (s code : string) (clock : Z) :
  Pyotp.now s clock = Ok code -> exists key, Pyotp.byte_secret s = Ok key.
Proof.
  unfold Pyotp.now, Pyotp.generate_otp. destruct (_ <? 0); [discriminate|].
  destruct (Pyotp.byte_secret s) as [key | e]; [eauto | discriminate].
Qed.

(** [add_secret] returns [True] exactly when the normalized secret decodes
    and the identity is new; in every other case the store is left as it
    was. *)
Theorem add_secret_succeeds_iff (d : Sql.db) (email raw : string) (clock : Z) :
  0 <= clock ->
  let o := TOTPManager.add_secret d email raw clock in
  (TOTPManager.returned o = true <->
     (exists key, Pyotp.byte_secret (TOTPManager.normalize raw) = Ok key)
     /\ ~ Spec.present email d)
  /\ (TOTPManager.returned o = false -> TOTPManager.store o = d).
Proof.
  intros Hc o. unfold o.
  destruct (Pyotp.byte_secret (TOTPManager.normalize raw)) as [key | e] eqn:Hk.
  - destruct (present_dec email d) as [Hp | Hp].
    + rewrite (add_secret_present d email raw key clock Hk Hc Hp). cbn. split.
      * split; [discriminate | tauto].
      * reflexivity.
    + rewrite (add_secret_absent d email raw key clock Hk Hc Hp). cbn. split.
      * split; [eauto | reflexivity].
      * discriminate.
  - rewrite (add_secret_undecodable d email raw clock e Hk Hc). cbn. split.
    + split; [discriminate | intros [[key Hkey] _]; discriminate].
    + reflexivity.
Qed.

Lemma add_secret_succeeds_iff_witness :
  let o := TOTPManager.add_secret example_db "carol@x.org" "my" 7 in
  (TOTPManager.returned o = true <->
     (exists key, Pyotp.byte_secret (TOTPManager.normalize "my") = Ok key)
     /\ ~ Spec.present "carol@x.org" example_db)
  /\ (TOTPManager.returned o = false -> TOTPManager.store o = example_db).
Proof.
  apply (add_secret_succeeds_iff example_db "carol@x.org" "my" 7). lia.
Defined.

Lemma find_app_absent (l : list Sql.row) (r : Sql.row) (email : string) :
  ~ In email (map Sql.row_email l) ->
  find (Sql.has_email email) (l ++ [r]) = find (Sql.has_email email) [r].
Proof.
  induction l as [| x l IH]; intros H; [reflexivity|].
  cbn [app find]. destruct (Sql.has_email email x) eqn:E.
  - apply has_email_iff in E. exfalso. apply H. left. exact E.
  - apply IH. intros Hin. apply H. right. exact Hin.
Qed.

Lemma find_app_other (l : list Sql.row) (r : Sql.row) (other : string) :
  Sql.has_email other r = false ->
  find (Sql.has_email other) (l ++ [r]) = find (Sql.has_email other) l.
Proof.
  intros Hr. induction l as [| x l IH]; cbn [app find].
  - rewrite Hr. reflexivity.
  - destruct (Sql.has_email other x); [reflexivity | exact IH].
Qed.

Lemma like_percent_intro (p s : string) :
  Sql.like p s = true -> Sql.like (String "%" p) s = true.
Proof.
  intros H. destruct s as [| c s].
  - rewrite like_percent_nil. exact H.
  - rewrite like_percent_cons, H. reflexivity.
Qed.

Lemma like_percent_skip (p s : string) (c : ascii) :
  Sql.like (String "%" p) s = true -> Sql.like (String "%" p) (String c s) = true.
Proof. intros H. rewrite like_percent_cons, H. apply orb_true_r. Qed.

Lemma like_char_of_nocase (c d : ascii) :
  Ascii.eqb (lower_char c) (lower_char d) = true -> Sql.like_char c d = true.
Proof.
  intros H. destruct (Sql.is_underscore c) eqn:U.
  - unfold Sql.like_char. rewrite U. apply orb_true_r.
  - rewrite like_char_nocase by exact U. exact H.
Qed.

(** Whatever the term holds, wildcards included, a string that begins with
    the term up to case matches the term followed by [%]. *)
Lemma prefix_nocase_like (term s : string) :
  Spec.prefix_nocase term s = true -> Sql.like (term ++ "%") s = true.
Proof.
  revert s. induction term as [| c term IH]; intros s H.
  - apply like_percent_all.
  - destruct s as [| d s]; [discriminate|].
    cbn [Spec.prefix_nocase] in H. apply andb_true_iff in H. destruct H as [Hcd Hs].
    cbn [append]. destruct (Sql.is_percent c) eqn:P.
    + apply Ascii.eqb_eq in P. subst c.
      apply like_percent_skip. apply like_percent_intro. apply IH. exact Hs.
    + cbn [Sql.like]. rewrite P, (like_char_of_nocase c d Hcd), (IH s Hs). reflexivity.
Qed.

Lemma occurs_nocase_like (term s : string) :
  Spec.occurs_nocase term s = true -> Sql.like ("%" ++ term ++ "%") s = true.
Proof.
  change ("%" ++ term ++ "%")%string with (String "%" (term ++ "%")).
  induction s as [| c s IH]; cbn [Spec.occurs_nocase]; intros H.
  - rewrite orb_false_r in H. apply like_percent_intro, prefix_nocase_like, H.
  - apply orb_true_iff in H. destruct H as [H | H].
    + apply like_percent_intro, prefix_nocase_like, H.
    + apply like_percent_skip, IH, H.
Qed.

Lemma eq_nocase_refl (s : string) : Spec.eq_nocase s s.
Proof. induction s; cbn; auto. Qed.

Lemma contains_nocase_refl (s : string) : Spec.contains_nocase s s.
Proof.
  exists "", s, "". split; [|apply eq_nocase_refl].
  cbn. rewrite string_app_empty_r. reflexivity.
Qed.

Lemma in_search_emails (d : Sql.db) (term : string) (r : Sql.row) :
  In r (Sql.rows d) ->
  Sql.like ("%" ++ term ++ "%") (Sql.row_email r) = true ->
  In (Sql.columns r) (TOTPManager.search_emails d term).
Proof.
  intros Hin Hl. unfold TOTPManager.search_emails, Sql.select_like.
  apply in_map. apply (Permutation_in _ (Permutation_sym (order_by_email_perm _))).
  apply filter_In. split; assumption.
Qed.

(** ** What the writing methods store *)

(** Insert then look up: after [add_secret] has accepted a new identity,
    the store holds the normalized secret under that identity, with a fresh
    id, after the rows it held before; every other identity keeps its
    secret, and searching for the exact email finds the new entry. *)
Theorem add_secret_then_lookup
  (d : Sql.db) (email raw : string) (key : list Z) (clock : Z) :
  Pyotp.byte_secret (TOTPManager.normalize raw) = Ok key ->
  0 <= clock ->
  ~ Spec.present email d ->
  let d' := TOTPManager.store (TOTPManager.add_secret d email raw clock) in
  Spec.secret_of d' email = Some (TOTPManager.normalize raw)
  /\ Spec.emails d' = Spec.emails d ++ [email]
  /\ (forall other, other <> email -> Spec.secret_of d' other = Spec.secret_of d other)
  /\ In (Sql.seq d + 1, email, TOTPManager.normalize raw)
        (TOTPManager.search_emails d' email).
Proof.
  intros Hk Hc Hp d'. unfold d'.
  rewrite (add_secret_absent d email raw key clock Hk Hc Hp).
  cbn [TOTPManager.store].
  set (r := Sql.mkrow (Sql.seq d + 1) email (TOTPManager.normalize raw) clock clock).
  assert (Sql.has_email email r = true) as Hr by (apply has_email_iff; reflexivity).
  split; [|split; [|split]].
  - unfold Spec.secret_of. cbn [Sql.rows].
    rewrite find_app_absent by exact Hp. cbn [find]. rewrite Hr. reflexivity.
  - unfold Spec.emails. cbn [Sql.rows]. rewrite map_app. reflexivity.
  - intros other Hne. unfold Spec.secret_of. cbn [Sql.rows].
    rewrite find_app_other; [reflexivity|].
    destruct (Sql.has_email other r) eqn:E; [|reflexivity].
    apply has_email_iff in E. cbn in E. congruence.
  - change (Sql.seq d + 1, email, TOTPManager.normalize raw) with (Sql.columns r).
    apply in_search_emails.
    + cbn [Sql.rows]. apply in_or_app. right. left. reflexivity.
    + apply occurs_nocase_like. apply occurs_nocase_iff. apply contains_nocase_refl.
Qed.

Lemma add_secret_then_lookup_witness :
  let d' := TOTPManager.store (TOTPManager.add_secret example_db "carol@x.org" "m y" 7) in
  Spec.secret_of d' "carol@x.org" = Some (TOTPManager.normalize "m y")
  /\ Spec.emails d' = Spec.emails example_db ++ ["carol@x.org"]
  /\ (forall other, other <> "carol@x.org" ->
        Spec.secret_of d' other = Spec.secret_of example_db other)
  /\ In (Sql.seq example_db + 1, "carol@x.org", TOTPManager.normalize "m y")
        (TOTPManager.search_emails d' "carol@x.org").
Proof.
  apply (add_secret_then_lookup example_db "carol@x.org" "m y" [102] 7).
  - vm_compute. reflexivity.
  - lia.
  - intros [H | [H | [H | []]]]; discriminate H.
Defined.

Lemma update_rows_emails (l : list Sql.row) (email secret : string) (clock : Z) :
  map Sql.row_email
    (map (fun r => if Sql.has_email email r
                   then Sql.mkrow (Sql.row_id r) (Sql.row_email r) secret
                          (Sql.created_at r) clock
                   else r) l)
  = map Sql.row_email l.
Proof.
  rewrite map_map. apply map_ext. intros r.
  destruct (Sql.has_email email r); reflexivity.
Qed.

Lemma update_rows_find (l : list Sql.row) (email secret other : string) (clock : Z) :
  option_map Sql.row_secret
    (find (Sql.has_email other)
       (map (fun r => if Sql.has_email email r
                      then Sql.mkrow (Sql.row_id r) (Sql.row_email r) secret
                             (Sql.created_at r) clock
                      else r) l))
  = if String.eqb other email
    then option_map (fun _ => secret) (find (Sql.has_email other) l)
    else option_map Sql.row_secret (find (Sql.has_email other) l).
Proof.
  induction l as [| r l IH].
  - cbn. destruct (String.eqb other email); reflexivity.
  - cbn [map find]. destruct (Sql.has_email email r) eqn:E.
    + apply has_email_iff in E. unfold Sql.has_email at 1. cbn [Sql.row_email].
      fold (Sql.has_email other r).
      destruct (Sql.has_email other r) eqn:F; [|exact IH].
      apply has_email_iff in F.
      assert (other = email) as -> by congruence.
      rewrite String.eqb_refl. reflexivity.
    + destruct (Sql.has_email other r) eqn:F; [|exact IH].
      apply has_email_iff in F. apply String.eqb_neq in E.
      assert (other <> email) as Hne by congruence.
      apply String.eqb_neq in Hne. rewrite Hne. reflexivity.
Qed.

Lemma find_present (l : list Sql.row) (email : string) :
  In email (map Sql.row_email l) -> exists r, find (Sql.has_email email) l = Some r.
Proof.
  induction l as [| x l IH]; intros H; [contradiction|].
  cbn [find]. destruct (Sql.has_email email x) eqn:E; [eauto|].
  apply IH. destruct H as [H | H]; [|exact H].
  apply has_email_iff in H. congruence.
Qed.

Lemma filter_present (l : list Sql.row) (email : string) :
  In email (map Sql.row_email l) -> filter (Sql.has_email email) l <> [].
Proof.
  intros H F. apply in_map_iff in H. destruct H as (r & Hr & Hin).
  assert (In r (filter (Sql.has_email email) l)) as Hf
    by (apply filter_In; split; [exact Hin | apply has_email_iff; exact Hr]).
  rewrite F in Hf. contradiction.
Qed.

Lemma rowcount_zero_iff (d : Sql.db) (email : string) :
  (Z.of_nat (List.length (filter (Sql.has_email email) (Sql.rows d))) =? 0) = true
  <-> ~ Spec.present email d.
Proof.
  rewrite Z.eqb_eq. split.
  - intros H Hp. apply (filter_present _ _ Hp).
    destruct (filter _ _); [reflexivity | cbn in H; lia].
  - intros Hp. rewrite (filter_absent _ _ Hp). reflexivity.
Qed.

(** [update_secret] returns [True] exactly when the normalized secret
    decodes and the identity is stored.  It then replaces the secret of
    that identity by the normalized one and nothing else: the identities,
    their order, the ids and the counter stay, and every other identity
    keeps its secret.  In every other case the store is left as it was; in
    particular a secret that does not decode never overwrites a stored
    one. *)
Theorem update_secret_effect (d : Sql.db) (email raw : string) (clock : Z) :
  0 <= clock ->
  let o := TOTPManager.update_secret d email raw clock in
  let d' := TOTPManager.store o in
  (TOTPManager.returned o = true <->
     (exists key, Pyotp.byte_secret (TOTPManager.normalize raw) = Ok key)
     /\ Spec.present email d)
  /\ (TOTPManager.returned o = false -> d' = d)
  /\ (TOTPManager.returned o = true ->
        Spec.secret_of d' email = Some (TOTPManager.normalize raw)
        /\ Spec.emails d' = Spec.emails d
        /\ map Sql.row_id (Sql.rows d') = map Sql.row_id (Sql.rows d)
        /\ Sql.seq d' = Sql.seq d
        /\ (forall other, other <> email ->
              Spec.secret_of d' other = Spec.secret_of d other))
  /\ (forall e, Pyotp.byte_secret (TOTPManager.normalize raw) = Raise e ->
        o = TOTPManager.mkoutcome d (MsgInvalidFormat e) false).
Proof.
  intros Hc o d'. unfold d', o, TOTPManager.update_secret.
  destruct (Pyotp.byte_secret (TOTPManager.normalize raw)) as [key | e] eqn:Hk.
  - destruct (now_ok _ key clock Hk Hc) as [code ->]. unfold Sql.update.
    destruct (_ =? 0) eqn:Hrc.
    + apply rowcount_zero_iff in Hrc. cbn.
      split; [split; [discriminate | tauto]|].
      split; [reflexivity|]. split; [discriminate | discriminate].
    + assert (Spec.present email d) as Hp.
      { destruct (present_dec email d) as [Hp | Hp]; [exact Hp|].
        apply rowcount_zero_iff in Hp. congruence. }
      cbn [TOTPManager.returned TOTPManager.store Sql.rows Sql.seq].
      split; [split; [eauto | reflexivity]|].
      split; [discriminate|]. split; [|discriminate].
      intros _. split; [|split; [|split; [|split]]].
      * unfold Spec.secret_of. cbn [Sql.rows]. rewrite update_rows_find.
        rewrite String.eqb_refl.
        destruct (find_present _ _ Hp) as [r ->]. reflexivity.
      * unfold Spec.emails. cbn [Sql.rows]. apply update_rows_emails.
      * rewrite map_map. apply map_ext. intros r.
        destruct (Sql.has_email email r); reflexivity.
      * reflexivity.
      * intros other Hne. unfold Spec.secret_of. cbn [Sql.rows].
        rewrite update_rows_find. apply String.eqb_neq in Hne. rewrite Hne.
        reflexivity.
  - rewrite (now_raises _ e clock Hk Hc). cbn.
    split; [split; [discriminate | intros [[key Hkey] _]; discriminate]|].
    split; [reflexivity|]. split; [discriminate|].
    intros e' [= <-]. reflexivity.
Qed.

Lemma update_secret_effect_witness :
  let o := TOTPManager.update_secret example_db "bob@x.org" "m y" 100 in
  let d' := TOTPManager.store o in
  (TOTPManager.returned o = true <->
     (exists key, Pyotp.byte_secret (TOTPManager.normalize "m y") = Ok key)
     /\ Spec.present "bob@x.org" example_db)
  /\ (TOTPManager.returned o = false -> d' = example_db)
  /\ (TOTPManager.returned o = true ->
        Spec.secret_of d' "bob@x.org" = Some (TOTPManager.normalize "m y")
        /\ Spec.emails d' = Spec.emails example_db
        /\ map Sql.row_id (Sql.rows d') = map Sql.row_id (Sql.rows example_db)
        /\ Sql.seq d' = Sql.seq example_db
        /\ (forall other, other <> "bob@x.org" ->
              Spec.secret_of d' other = Spec.secret_of example_db other))
  /\ (forall e, Pyotp.byte_secret (TOTPManager.normalize "m y") = Raise e ->
        o = TOTPManager.mkoutcome example_db (MsgInvalidFormat e) false).
Proof.
  apply (update_secret_effect example_db "bob@x.org" "m y" 100). lia.
Defined.

(** [delete_secret] returns [True] exactly when the identity is stored;
    for an identity that is not stored it reports not-found and leaves the
    store as it was. *)
Theorem delete_secret_succeeds_iff (d : Sql.db) (email : string) :
  let o := TOTPManager.delete_secret d email in
  (TOTPManager.returned o = true <-> Spec.present email d)
  /\ (~ Spec.present email d ->
        o = TOTPManager.mkoutcome d (MsgNotFound email) false)
  /\ ~ Spec.present email (TOTPManager.store o).
Proof.
  intros o. unfold o, TOTPManager.delete_secret, Sql.delete.
  assert (forall l, ~ In email (map Sql.row_email
            (filter (fun r => negb (Sql.has_email email r)) l))) as Hgone.
  { intros l Hin. apply in_map_iff in Hin. destruct Hin as (r & Hr & Hin).
    apply filter_In in Hin. destruct Hin as [_ Hin].
    apply has_email_iff in Hr. rewrite Hr in Hin. discriminate. }
  destruct (_ =? 0) eqn:Hrc.
  - apply rowcount_zero_iff in Hrc. cbn.
    split; [split; [discriminate | tauto]|]. split; [reflexivity | exact Hrc].
  - assert (Spec.present email d) as Hp.
    { destruct (present_dec email d) as [Hp | Hp]; [exact Hp|].
      apply rowcount_zero_iff in Hp. congruence. }
    cbn. split; [split; [intros _; exact Hp | reflexivity]|].
    split; [intros Hn; contradiction|]. apply Hgone.
Qed.

Lemma filter_keep_absent (l : list Sql.row) (email : string) :
  ~ In email (map Sql.row_email l) ->
  filter (fun r => negb (Sql.has_email email r)) l = l.
Proof.
  induction l as [| r l IH]; intros H; [reflexivity|].
  cbn [filter]. destruct (Sql.has_email email r) eqn:E.
  - apply has_email_iff in E. exfalso. apply H. left. exact E.
  - cbn [negb]. f_equal. apply IH. intros Hin. apply H. right. exact Hin.
Qed.

(** Adding a new identity and deleting it again gives back the rows the
    store held; only the AUTOINCREMENT counter has moved, so the id of the
    deleted row is not handed out again. *)
Theorem add_then_delete
  (d : Sql.db) (email raw : string) (key : list Z) (clock : Z) :
  Pyotp.byte_secret (TOTPManager.normalize raw) = Ok key ->
  0 <= clock ->
  ~ Spec.present email d ->
  let d1 := TOTPManager.store (TOTPManager.add_secret d email raw clock) in
  let o := TOTPManager.delete_secret d1 email in
  TOTPManager.returned o = true
  /\ Sql.rows (TOTPManager.store o) = Sql.rows d
  /\ Sql.seq (TOTPManager.store o) = Sql.seq d + 1.
Proof.
  intros Hk Hc Hp d1 o. unfold o, d1.
  rewrite (add_secret_absent d email raw key clock Hk Hc Hp).
  cbn [TOTPManager.store].
  set (r := Sql.mkrow (Sql.seq d + 1) email (TOTPManager.normalize raw) clock clock).
  assert (Sql.has_email email r = true) as Hr by (apply has_email_iff; reflexivity).
  unfold TOTPManager.delete_secret, Sql.delete. cbn [Sql.rows Sql.seq].
  rewrite !filter_app. cbn [filter]. rewrite Hr. cbn [negb].
  rewrite (filter_absent _ _ Hp), (filter_keep_absent _ _ Hp), app_nil_r.
  cbn. split; [reflexivity | split; reflexivity].
Qed.

Lemma add_then_delete_witness :
  let d1 := TOTPManager.store (TOTPManager.add_secret example_db "carol@x.org" "m y" 7) in
  let o := TOTPManager.delete_secret d1 "carol@x.org" in
  TOTPManager.returned o = true
  /\ Sql.rows (TOTPManager.store o) = Sql.rows example_db
  /\ Sql.seq (TOTPManager.store o) = Sql.seq example_db + 1.
Proof.
  apply (add_then_delete example_db "carol@x.org" "m y" [102] 7).
  - vm_compute. reflexivity.
  - lia.
  - intros [H | [H | [H | []]]]; discriminate H.
Defined.

(** ** Stores built by the manager *)

Lemma ids_fresh_step (d : Sql.db) (w : Inv.write) :
  Inv.ids_fresh d -> Inv.ids_fresh (Inv.apply_write d w).
Proof.
  unfold Inv.ids_fresh. intros [Hnd Hle]. destruct w as [email raw clock | email raw clock | email];
    cbn [Inv.apply_write].
  - unfold TOTPManager.add_secret, TOTPManager.add_secret_try.
    destruct (Pyotp.now _ _) as [code | e]; cbn [bind];
      [|destruct e; cbn; auto].
    unfold Sql.insert. destruct (existsb _ _); [cbn; auto|].
    cbn [TOTPManager.store Sql.rows Sql.seq]. split.
    + rewrite map_app. cbn [map Sql.row_id].
      apply (Permutation_NoDup (l := (Sql.seq d + 1) :: map Sql.row_id (Sql.rows d)));
        [apply Permutation_cons_append|].
      constructor; [|exact Hnd].
      intros Hin. apply in_map_iff in Hin. destruct Hin as (r & Hr & Hin).
      rewrite Forall_forall in Hle. specialize (Hle r Hin). lia.
    + apply Forall_app. split.
      * eapply Forall_impl; [|exact Hle]. cbn. intros r Hr. lia.
      * constructor; [cbn; lia | constructor].
  - unfold TOTPManager.update_secret.
    destruct (Pyotp.now _ _) as [code | e]; [|cbn; auto].
    unfold Sql.update. destruct (_ =? 0); [cbn; auto|].
    cbn [TOTPManager.store Sql.rows Sql.seq]. split.
    + rewrite map_map. erewrite map_ext; [exact Hnd|].
      intros r. destruct (Sql.has_email email r); reflexivity.
    + apply Forall_map. eapply Forall_impl; [|exact Hle]. cbn.
      intros r Hr. destruct (Sql.has_email email r); exact Hr.
  - unfold TOTPManager.delete_secret, Sql.delete.
    destruct (_ =? 0); [cbn; auto|].
    cbn [TOTPManager.store Sql.rows Sql.seq]. split.
    + clear Hle. induction (Sql.rows d) as [| r l IH]; [constructor|].
      cbn [map filter] in *. inversion Hnd as [| ? ? Hnotin Hnd']; subst.
      destruct (negb (Sql.has_email email r)); [|apply IH; exact Hnd'].
      cbn [map]. constructor; [|apply IH; exact Hnd'].
      intros Hin. apply Hnotin. apply in_map_iff in Hin.
      destruct Hin as (x & Hx & Hin). apply filter_In in Hin.
      apply in_map_iff. exists x. tauto.
    + rewrite Forall_forall in *. intros r Hin. apply filter_In in Hin.
      apply Hle. tauto.
Qed.

Lemma secrets_step (d : Sql.db) (w : Inv.write) :
  Inv.secrets_decode d /\ Inv.secrets_normal d ->
  Inv.secrets_decode (Inv.apply_write d w) /\ Inv.secrets_normal (Inv.apply_write d w).
Proof.
  unfold Inv.secrets_decode, Inv.secrets_normal. intros [Hd Hn].
  destruct w as [email raw clock | email raw clock | email]; cbn [Inv.apply_write].
  - unfold TOTPManager.add_secret, TOTPManager.add_secret_try.
    destruct (Pyotp.now _ _) as [code | e] eqn:Hnow; cbn [bind];
      [|destruct e; cbn; auto].
    unfold Sql.insert. destruct (existsb _ _); [cbn; auto|].
    cbn [TOTPManager.store Sql.rows]. split; apply Forall_app; split; trivial.
    + constructor; [|constructor]. cbn. eapply now_ok_decodes. exact Hnow.
    + constructor; [|constructor]. cbn. apply normalize_fixed, normalize_clean.
  - unfold TOTPManager.update_secret.
    destruct (Pyotp.now _ _) as [code | e] eqn:Hnow; [|cbn; auto].
    unfold Sql.update. destruct (_ =? 0); [cbn; auto|].
    cbn [TOTPManager.store Sql.rows]. split; apply Forall_map.
    + eapply Forall_impl; [|exact Hd]. cbn. intros r Hr.
      destruct (Sql.has_email email r); [|exact Hr].
      cbn. eapply now_ok_decodes. exact Hnow.
    + eapply Forall_impl; [|exact Hn]. cbn. intros r Hr.
      destruct (Sql.has_email email r); [|exact Hr].
      cbn. apply normalize_fixed, normalize_clean.
  - unfold TOTPManager.delete_secret, Sql.delete.
    destruct (_ =? 0); [cbn; auto|].
    cbn [TOTPManager.store Sql.rows].
    split; rewrite Forall_forall in *; intros r Hin; apply filter_In in Hin;
      [apply Hd | apply Hn]; tauto.
Qed.

Lemma unique_emails_step (d : Sql.db) (w : Inv.write) :
  Spec.unique_emails d -> Spec.unique_emails (Inv.apply_write d w).
Proof.
  destruct unique_emails_invariant as (_ & Ha & Hu & Hd).
  destruct w; cbn [Inv.apply_write]; auto.
Qed.

(** Every store that the manager builds from the empty table, by any
    sequence of [add_secret], [update_secret] and [delete_secret] calls
    (failed ones included), keeps the identities unique, the row ids
    distinct and below the AUTOINCREMENT counter, and every stored secret in
    normal form and decodable. *)
Theorem reachable_invariants (d : Sql.db) :
  Inv.reachable d ->
  Spec.unique_emails d /\ Inv.ids_fresh d
  /\ Inv.secrets_decode d /\ Inv.secrets_normal d.
Proof.
  intros [ws ->].
  assert (Spec.unique_emails Sql.empty /\ Inv.ids_fresh Sql.empty
          /\ Inv.secrets_decode Sql.empty /\ Inv.secrets_normal Sql.empty) as H0.
  { split; [constructor|]. split; [split; constructor|]. split; constructor. }
  revert H0. generalize Sql.empty as d0.
  induction ws as [| w ws IH]; intros d0 H0; [exact H0|].
  cbn [fold_left]. apply IH. destruct H0 as (Hu & Hi & Hd & Hn).
  pose proof (secrets_step d0 w (conj Hd Hn)) as [Hd' Hn'].
  split; [apply unique_emails_step; exact Hu|].
  split; [apply ids_fresh_step; exact Hi|]. split; assumption.
Qed.

Lemma example_db_reachable : Inv.reachable example_db.
Proof.
  exists [Inv.Add "bob@x.org" "jbsw y3dp" 59;
          Inv.Add "al_ice@x.org" rfc_secret 60;
          Inv.Add "x" "%" 60;
          Inv.Add "alXice@x.org" "mfrgg" 61;
          Inv.Delete "nobody"].
  vm_compute. reflexivity.
Qed.

Lemma reachable_invariants_witness :
  Spec.unique_emails example_db /\ Inv.ids_fresh example_db
  /\ Inv.secrets_decode example_db /\ Inv.secrets_normal example_db.
Proof.
  apply (reachable_invariants example_db).
  exists [Inv.Add "bob@x.org" "jbsw y3dp" 59;
          Inv.Add "al_ice@x.org" rfc_secret 60;
          Inv.Add "x" "%" 60;
          Inv.Add "alXice@x.org" "mfrgg" 61;
          Inv.Delete "nobody"].
  vm_compute. reflexivity.
Defined.

(** ** What a search returns, for any term *)

Lemma results_ordered_columns (l : list Sql.row) :
  Spec.ordered_by_email l -> Inv.results_ordered (map Sql.columns l).
Proof.
  unfold Spec.ordered_by_email, Inv.results_ordered.
  induction 1 as [| r l Hs IH Hhd]; [constructor|].
  cbn [map]. constructor; [exact IH|].
  destruct Hhd as [| y l' Hy]; constructor. exact Hy.
Qed.

Lemma NoDup_emails_filter (p : Sql.row -> bool) (l : list Sql.row) :
  NoDup (map Sql.row_email l) -> NoDup (map Sql.row_email (filter p l)).
Proof.
  induction l as [| r l IH]; intros H; [constructor|].
  cbn [map filter] in *. inversion H as [| ? ? Hnotin Hnd]; subst.
  destruct (p r); [|apply IH; exact Hnd].
  cbn [map]. constructor; [|apply IH; exact Hnd].
  intros Hin. apply Hnotin. apply in_map_iff in Hin.
  destruct Hin as (x & Hx & Hin). apply filter_In in Hin.
  apply in_map_iff. exists x. tauto.
Qed.

Lemma result_email_columns (l : list Sql.row) :
  map Inv.result_email (map Sql.columns l) = map Sql.row_email l.
Proof. rewrite map_map. reflexivity. Qed.

Lemma secret_of_unique (d : Sql.db) (r : Sql.row) :
  Spec.unique_emails d -> In r (Sql.rows d) ->
  Spec.secret_of d (Sql.row_email r) = Some (Sql.row_secret r).
Proof.
  unfold Spec.unique_emails, Spec.emails, Spec.secret_of.
  induction (Sql.rows d) as [| x l IH]; intros Hnd Hin; [contradiction|].
  cbn [map find] in *. inversion Hnd as [| ? ? Hnotin Hnd']; subst.
  destruct Hin as [-> | Hin].
  - unfold Sql.has_email. rewrite String.eqb_refl. reflexivity.
  - destruct (Sql.has_email (Sql.row_email r) x) eqn:E; [|apply IH; assumption].
    apply has_email_iff in E. exfalso. apply Hnotin. rewrite E.
    apply in_map. exact Hin.
Qed.

(** Whatever the search term (wildcards included), [search_emails] returns
    rows in ascending order of identity, each of them the id, identity and
    secret of a stored row; with unique identities no identity is returned
    twice and the secret returned is the one stored for the identity. *)
Theorem search_emails_sound (d : Sql.db) (term : string) :
  let results := TOTPManager.search_emails d term in
  Inv.results_ordered results
  /\ (forall x, In x results -> exists r, In r (Sql.rows d) /\ x = Sql.columns r)
  /\ (Spec.unique_emails d ->
        NoDup (map Inv.result_email results)
        /\ forall x, In x results ->
             Spec.secret_of d (Inv.result_email x) = Some (Inv.result_secret x)).
Proof.
  intros results. unfold results, TOTPManager.search_emails, Sql.select_like.
  set (p := fun r => Sql.like ("%" ++ term ++ "%") (Sql.row_email r)).
  assert (forall x, In x (map Sql.columns (Sql.order_by_email (filter p (Sql.rows d)))) ->
            exists r, In r (Sql.rows d) /\ x = Sql.columns r) as Hsub.
  { intros x Hin. apply in_map_iff in Hin. destruct Hin as (r & <- & Hin).
    apply (Permutation_in _ (order_by_email_perm _)) in Hin.
    apply filter_In in Hin. exists r. tauto. }
  split; [|split].
  - apply results_ordered_columns, order_by_email_ordered.
  - exact Hsub.
  - intros Hu. split.
    + rewrite result_email_columns.
      apply (Permutation_NoDup (l := map Sql.row_email (filter p (Sql.rows d)))).
      * apply Permutation_map, Permutation_sym, order_by_email_perm.
      * apply NoDup_emails_filter. exact Hu.
    + intros x Hin. destruct (Hsub x Hin) as (r & Hr & ->).
      apply secret_of_unique; assumption.
Qed.



(** [get_all_emails] returns every stored row exactly once, as id,
    identity and secret, in ascending order of identity. *)
Theorem get_all_emails_all (d : Sql.db) :
  let results := TOTPManager.get_all_emails d in
  Permutation results (map Sql.columns (Sql.rows d))
  /\ Inv.results_ordered results
  /\ List.length results = List.length (Sql.rows d).
Proof.
  intros results. unfold results, TOTPManager.get_all_emails, Sql.select_all.
  split; [|split].
  - apply Permutation_map, order_by_email_perm.
  - apply results_ordered_columns, order_by_email_ordered.
  - rewrite length_map. apply Permutation_length, order_by_email_perm.
Qed.

(** ** The selection dialogue of [get] and [list] *)



Lemma generated_printed (ms : list message) (evs : list Main.event) :
  Inv.generated (map Main.Printed ms ++ evs) = Inv.generated evs.
Proof. induction ms as [| m ms IH]; [reflexivity | exact IH]. Qed.

Lemma numbered_nth (results : list (Z * string * string)) (k : nat) (idx : Z)
  (id : Z) (email secret : string) :
  nth_error results k = Some (id, email, secret) ->
  In (MsgItem (idx + Z.of_nat k) email) (Spec.numbered idx results).
Proof.
  revert k idx. induction results as [| [[id' email'] secret'] results IH];
    intros k idx H; [destruct k; discriminate|].
  destruct k as [| k]; cbn [nth_error Spec.numbered] in *.
  - injection H as -> -> ->. left. f_equal. cbn. lia.
  - right. replace (idx + Z.of_nat (S k)) with (idx + 1 + Z.of_nat k) by lia.
    apply IH. exact H.
Qed.

(** The dialogue after the candidate list, whatever the line typed: either
    no code is generated and the process exits (status 0 on an empty line,
    1 otherwise), or exactly one code is generated, from the secret of one
    of the candidates. *)
Lemma run_select (displayed : list (Z * string * string)) (line : string)
  (clock : Z) (stdin : list string) :
  let evs := fst (Main.run (Main.select (Some displayed) line) clock stdin) in
  let fin := snd (Main.run (Main.select (Some displayed) line) clock stdin) in
  (Inv.generated evs = [] /\ (fin = Main.Exited 0 \/ fin = Main.Exited 1))
  \/ (exists id email secret,
        In (id, email, secret) displayed
        /\ Inv.generated evs = [secret]
        /\ match TOTPManager.get_totp secret clock with
           | Ok _ => fin = Main.Exited 0
           | Raise e => if is_value_error e then fin = Main.Exited 1
                        else fin = Main.Crashed e
           end).
Proof.
  intros evs fin. unfold evs, fin, Main.select.
  destruct (String.eqb (Main.strip line) ""); [left; cbn; auto|].
  destruct (Main.int (Main.strip line)) as [n |]; [|left; cbn; auto].
  destruct (_ && _) eqn:Hr; [|left; cbn; auto].
  apply andb_true_iff in Hr. destruct Hr as [H0 H1].
  apply Z.leb_le in H0. apply Z.ltb_lt in H1.
  destruct (nth_error displayed (Z.to_nat (n - 1))) as [[[id email] secret] |] eqn:Hn.
  - right. exists id, email, secret. split; [eapply nth_error_In; exact Hn|].
    rewrite run_GetTotp. cbn zeta.
    destruct (TOTPManager.get_totp secret clock) as [code | e]; cbn; [auto|].
    destruct (is_value_error e); cbn; auto.
  - apply nth_error_None in Hn. lia.
Qed.

(** Selection by number: when [get] finds several identities and the line
    typed is the number [n] of a candidate, the code is generated from the
    secret of the n-th result in order of identity, which is the identity
    shown under that number, and is printed for it. *)
Theorem get_command_selects_nth
  (d : Sql.db) (term line : string) (clock n : Z) (stdin : list string)
  (id : Z) (email secret code : string) :
  let results := TOTPManager.search_emails d term in
  (2 <= List.length results)%nat ->
  Main.int (Main.strip line) = Some n ->
  1 <= n ->
  nth_error results (Z.to_nat (n - 1)) = Some (id, email, secret) ->
  TOTPManager.get_totp secret clock = Ok code ->
  In (MsgItem n email) (Spec.candidate_list results)
  /\ Main.run (Main.get_command d term) clock (line :: stdin) =
     (map Main.Printed (Spec.candidate_list results)
        ++ [Main.Prompted; Main.Generated secret (Ok code);
            Main.Printed (MsgCodeFor email); Main.Printed (MsgCode code)],
      Main.Exited 0).
Proof.
  intros results Hlen Hint Hn Hnth Hcode. split.
  - unfold Spec.candidate_list. right. right. apply in_or_app. left.
    replace n with (1 + Z.of_nat (Z.to_nat (n - 1))) by lia.
    eapply numbered_nth. exact Hnth.
  - unfold Main.get_command. fold results.
    destruct results as [| [[id0 email0] secret0] [| r1 more]] eqn:E;
      [cbn in Hlen; lia | cbn in Hlen; lia |].
    cbn [List.length Nat.eqb]. unfold Main.display_results.
    rewrite !run_Output, run_print_items, run_Output. cbn [fst snd Main.run].
    unfold Main.select.
    assert (String.eqb (Main.strip line) "" = false) as ->.
    { destruct (String.eqb_spec (Main.strip line) "") as [E0 | ]; [|reflexivity].
      rewrite E0 in Hint. discriminate Hint. }
    rewrite Hint.
    assert (Z.to_nat (n - 1) < List.length ((id0, email0, secret0) :: r1 :: more))%nat
      as Hlt by (apply nth_error_Some; rewrite Hnth; discriminate).
    destruct (Z.leb_spec 0 (n - 1)); [|lia].
    destruct (Z.ltb_spec (n - 1)
                (Z.of_nat (List.length ((id0, email0, secret0) :: r1 :: more))));
      [|lia].
    cbn [andb]. rewrite Hnth. cbn [Main.run]. rewrite Hcode. cbn.
    f_equal. unfold Spec.candidate_list. cbn [map app].
    rewrite map_app, <- app_assoc. reflexivity.
Qed.

Lemma get_command_selects_nth_witness :
  In (MsgItem 2 "al_ice@x.org")
     (Spec.candidate_list (TOTPManager.search_emails example_db "ICE"))
  /\ Main.run (Main.get_command example_db "ICE") 59 [" 2 "] =
     (map Main.Printed
        (Spec.candidate_list (TOTPManager.search_emails example_db "ICE"))
        ++ [Main.Prompted; Main.Generated rfc_secret (Ok "287082");
            Main.Printed (MsgCodeFor "al_ice@x.org");
            Main.Printed (MsgCode "287082")],
      Main.Exited 0).
Proof.
  apply (get_command_selects_nth example_db "ICE" " 2 " 59 2 [] 2).
  - vm_compute. lia.
  - vm_compute. reflexivity.
  - lia.
  - vm_compute. reflexivity.
  - vm_compute. reflexivity.
Defined.

(** Whatever is typed, [get] generates at most one code, and only from the
    secret of a row that the search returned. *)
Theorem get_command_generates_from_results
  (d : Sql.db) (term : string) (clock : Z) (stdin : list string) :
  let evs := fst (Main.run (Main.get_command d term) clock stdin) in
  (List.length (Inv.generated evs) <= 1)%nat
  /\ forall secret, In secret (Inv.generated evs) ->
       exists x, In x (TOTPManager.search_emails d term)
                 /\ Inv.result_secret x = secret.
Proof.
  intros evs. unfold evs, Main.get_command.
  destruct (TOTPManager.search_emails d term)
    as [| [[id email] secret] [| r1 more]] eqn:E.
  - cbn. split; [lia | contradiction].
  - cbn [List.length Nat.eqb]. rewrite run_GetTotp. cbn zeta. cbn [fst].
    assert (Inv.generated
              (fst (Main.run
                 match TOTPManager.get_totp secret clock with
                 | Ok totp_code => Main.print_code email totp_code
                 | Raise e => Main.Uncaught e
                 end clock stdin)) = []) as Hrest
      by (destruct (TOTPManager.get_totp secret clock); reflexivity).
    cbn [Inv.generated]. rewrite Hrest. split; [cbn; lia|].
    intros s [<- | []]. exists (id, email, secret). split; [left|]; reflexivity.
  - cbn [List.length Nat.eqb]. unfold Main.display_results.
    rewrite !run_Output, run_print_items, run_Output. cbn [fst snd].
    cbn [Inv.generated]. rewrite generated_printed. cbn [Inv.generated Main.run].
    destruct stdin as [| line stdin].
    + cbn. split; [lia | contradiction].
    + set (displayed := (id, email, secret) :: r1 :: more).
      pose proof (run_select displayed line clock stdin) as Hsel. cbn zeta in Hsel.
      destruct (Main.run (Main.select (Some displayed) line) clock stdin)
        as [evs' fin'].
      cbn [fst snd Inv.generated] in *.
      destruct Hsel as [[-> _] | (id' & email' & secret' & Hin & -> & _)].
      * split; [cbn; lia | contradiction].
      * split; [cbn; lia|]. intros s [<- | []].
        exists (id', email', secret'). split; [exact Hin | reflexivity].
Qed.

(** ** [main] as a whole *)



Lemma dialogue_parts (p : Main.prog) (d : Sql.db) (clock : Z) (stdin : list string) :
  Cli.dialogue p d clock stdin =
  (map Cli.Sub (fst (Main.run p clock stdin)), snd (Main.run p clock stdin), d).
Proof. unfold Cli.dialogue. destruct (Main.run p clock stdin). reflexivity. Qed.



(** [main] changes the database file only through [add], [update] or a
    [delete] confirmed by the word yes (in any letter case), each with the
    right number of arguments, and then exits with status 0: every other
    invocation, and a delete that is not confirmed, leaves the file as it
    was. *)
Theorem main_store_changes
  (argv : list string) (file : option Sql.db) (clock : Z) (stdin : list string) :
  let d := Cli.init_db file in
  let r := Cli.main argv file clock stdin in
  snd r <> d ->
  snd (fst r) = Main.Exited 0
  /\ exists a0 c args,
       argv = a0 :: c :: args
       /\ ((Cli.lower c = "add" /\ exists email secret,
              args = [email; secret]
              /\ snd r = TOTPManager.store (TOTPManager.add_secret d email secret clock))
           \/ (Cli.lower c = "update" /\ exists email secret,
                 args = [email; secret]
                 /\ snd r =
                    TOTPManager.store (TOTPManager.update_secret d email secret clock))
           \/ (Cli.lower c = "delete" /\ exists email confirm rest,
                 args = [email] /\ stdin = confirm :: rest
                 /\ Cli.lower confirm = "yes"
                 /\ snd r = TOTPManager.store (TOTPManager.delete_secret d email))).
Proof.
  intros d r. unfold r, Cli.main. fold d.
  destruct argv as [| a0 [| c args]];
    [cbn; intros H; contradiction | cbn; intros H; contradiction |].
  cbn zeta. unfold Cli.usage_error, Cli.report.
  destruct (String.eqb (Cli.lower c) "help") eqn:Eh;
    [cbn; intros H; contradiction|].
  destruct (String.eqb_spec (Cli.lower c) "add") as [Ea | _].
  { destruct args as [| x [| y [| z args]]]; cbn; intros H; try contradiction.
    split; [reflexivity|]. exists a0, c, [x; y]. split; [reflexivity|].
    left. split; [exact Ea|]. exists x, y. split; reflexivity. }
  destruct (String.eqb_spec (Cli.lower c) "update") as [Eu | _].
  { destruct args as [| x [| y [| z args]]]; cbn; intros H; try contradiction.
    split; [reflexivity|]. exists a0, c, [x; y]. split; [reflexivity|].
    right. left. split; [exact Eu|]. exists x, y. split; reflexivity. }
  destruct (String.eqb_spec (Cli.lower c) "delete") as [Ed | _].
  { destruct args as [| x [| y args]]; [cbn; intros H; contradiction | |
                                         cbn; intros H; contradiction].
    destruct stdin as [| confirm stdin]; [cbn; intros H; contradiction|].
    destruct (String.eqb_spec (Cli.lower confirm) "yes") as [Ey | _];
      [|cbn; intros H; contradiction].
    cbn. intros _. split; [reflexivity|]. exists a0, c, [x]. split; [reflexivity|].
    right. right. split; [exact Ed|]. exists x, confirm, stdin. auto. }
  destruct (String.eqb (Cli.lower c) "get").
  { destruct args as [| x [| y args]]; [cbn; intros H; contradiction | |
                                         cbn; intros H; contradiction].
    rewrite dialogue_parts. cbn. intros H. contradiction. }
  destruct (String.eqb (Cli.lower c) "list"); [|cbn; intros H; contradiction].
  destruct (TOTPManager.get_all_emails d) as [| x0 more];
    [cbn; intros H; contradiction|].
  rewrite dialogue_parts. cbn. intros H. contradiction.
Qed.

Lemma main_store_changes_witness :
  snd (fst (Cli.main ["totp_manager.py"; "DELETE"; "bob@x.org"]
              (Some example_db) 59 ["Yes"])) = Main.Exited 0.
Proof.
  apply (main_store_changes ["totp_manager.py"; "DELETE"; "bob@x.org"]
           (Some example_db) 59 ["Yes"]).
  vm_compute. intros H. discriminate H.
Defined.

Lemma get_all_emails_nil (d : Sql.db) :
  TOTPManager.get_all_emails d = [] <-> Sql.rows d = [].
Proof.
  unfold TOTPManager.get_all_emails, Sql.select_all.
  pose proof (Permutation_length (order_by_email_perm (Sql.rows d))) as Hl.
  split; intros H.
  - apply length_zero_iff_nil. apply (f_equal (@List.length _)) in H.
    rewrite length_map in H. cbn in H. lia.
  - rewrite H. reflexivity.
Qed.

(** [list] takes no argument into account and never picks an entry by
    itself: on an empty table it says so and exits with status 0; otherwise
    it prints every stored identity, numbered in ascending order, and
    prompts before any code is generated, even when a single identity is
    stored (where [get] would generate at once). *)
Theorem main_list_prompts
  (a0 c : string) (args : list string) (d : Sql.db) (clock : Z) (stdin : list string) :
  Cli.lower c = "list" ->
  (Sql.rows d = [] ->
     Cli.main (a0 :: c :: args) (Some d) clock stdin =
     ([Cli.Wrote Cli.NoSecretsStored], Main.Exited 0, d))
  /\ (Sql.rows d <> [] ->
        exists rest fin,
          Cli.main (a0 :: c :: args) (Some d) clock stdin =
          (map Cli.Sub
             (map Main.Printed (Spec.candidate_list (TOTPManager.get_all_emails d))
                ++ Main.Prompted :: rest),
           fin, d)
          /\ List.length (Spec.numbered 1 (TOTPManager.get_all_emails d)) =
             List.length (Sql.rows d)).
Proof.
  intros Hl. unfold Cli.main. cbn [Cli.init_db]. cbn zeta. rewrite Hl.
  cbn [String.eqb Ascii.eqb Bool.eqb andb].
  split.
  - intros Hnil. apply get_all_emails_nil in Hnil. rewrite Hnil. reflexivity.
  - intros Hne.
    destruct (TOTPManager.get_all_emails d) as [| x0 more] eqn:E.
    + apply get_all_emails_nil in E. contradiction.
    + rewrite dialogue_parts. unfold Cli.list_dialogue, Main.display_results.
      rewrite !run_Output, run_print_items, run_Output. cbn [fst snd].
      match goal with
      | |- context [Main.run (Main.Input ?k) clock stdin] =>
          destruct (run_Input k clock stdin) as (rest & fin & ->)
      end.
      cbn [fst snd]. exists rest, fin. split.
      * do 3 f_equal. unfold Spec.candidate_list. cbn [map app].
        rewrite map_app, <- app_assoc. reflexivity.
      * rewrite <- E.
        assert (forall idx l, List.length (Spec.numbered idx l) = List.length l) as Hn.
        { intros idx l. revert idx.
          induction l as [| [[i m] s] l IH]; intros idx; [reflexivity|].
          cbn. rewrite IH. reflexivity. }
        rewrite Hn. unfold TOTPManager.get_all_emails, Sql.select_all.
        rewrite length_map. apply Permutation_length, order_by_email_perm.
Qed.

Lemma main_list_prompts_witness :
  (Sql.rows example_db = [] ->
     Cli.main ["totp_manager.py"; "LIST"; "ignored"] (Some example_db) 59 [] =
     ([Cli.Wrote Cli.NoSecretsStored], Main.Exited 0, example_db))
  /\ (Sql.rows example_db <> [] ->
        exists rest fin,
          Cli.main ["totp_manager.py"; "LIST"; "ignored"] (Some example_db) 59 [] =
          (map Cli.Sub
             (map Main.Printed
                (Spec.candidate_list (TOTPManager.get_all_emails example_db))
                ++ Main.Prompted :: rest),
           fin, example_db)
          /\ List.length (Spec.numbered 1 (TOTPManager.get_all_emails example_db)) =
             List.length (Sql.rows example_db)).
Proof.
  apply (main_list_prompts "totp_manager.py" "LIST" ["ignored"] example_db 59 []).
  reflexivity.
Defined.

(** ** Decoding of secrets *)

Lemma map_string_length (f : ascii -> ascii) (s : string) :
  String.length (map_string f s) = String.length s.
Proof. induction s; cbn; congruence. Qed.

Lemma decode_quanta_length (n : nat) (s : string) (decoded decoded' : list Z)
  (acc acc' : Z) :
  Base32.decode_quanta n s decoded acc = Ok (decoded', acc') ->
  List.length decoded' = (List.length decoded + 5 * n)%nat.
Proof.
  revert s decoded acc. induction n as [| n IH]; intros s decoded acc H.
  - cbn in H. injection H as <- <-. lia.
  - cbn [Base32.decode_quanta] in H.
    destruct (Base32.quantum_acc (substring 0 8 s) 0) as [a | e]; [|discriminate].
    cbn [bind] in H. apply IH in H. rewrite H, length_app, be_bytes_length. lia.
Qed.

Lemma Ok_inj (A : Type) (a b : A) : Ok a = Ok b -> a = b.
Proof. intros H. injection H as H. exact H. Qed.

Lemma b32decode_empty (p : string) : Base32.b32decode p = Ok [] -> p = "".
Proof.
  unfold Base32.b32decode.
  destruct (negb (forall_string Base32.is_ascii_char p)); [discriminate|].
  destruct (negb (len p mod 8 =? 0)) eqn:Hm; [discriminate|].
  apply negb_false_iff, Z.eqb_eq in Hm.
  assert (len (upper p) = len p) as Hu
    by (unfold len, upper; rewrite map_string_length; reflexivity).
  set (s' := rstrip_char "=" (upper p)).
  destruct (Base32.decode_quanta _ s' [] 0) as [[decoded acc] | e] eqn:Hq;
    [|discriminate].
  cbn [bind]. apply decode_quanta_length in Hq. cbn [List.length Nat.add] in Hq.
  destruct (_ || _) eqn:Hv; [discriminate|].
  apply orb_false_iff in Hv. destruct Hv as [_ Hv]. apply negb_false_iff in Hv.
  assert (0 <= len s') as Hs' by (unfold len; lia).
  assert (0 <= len p) as Hp0 by (unfold len; lia).
  match goal with
  | |- (if ?b then _ else _) = _ -> _ => destruct b eqn:Hp
  end; intros H; apply Ok_inj in H.
  - exfalso. apply andb_true_iff in Hp. destruct Hp as [Hp _].
    apply negb_true_iff, Z.eqb_neq in Hp.
    apply app_eq_nil in H. destruct H as [_ H].
    apply (f_equal (@List.length Z)) in H. rewrite length_firstn, be_bytes_length in H.
    cbn [List.length] in H.
    unfold Base32.valid_padchars in Hv.
    rewrite !orb_true_iff, !Z.eqb_eq in Hv.
    destruct Hv as [[[[Hv | Hv] | Hv] | Hv] | Hv]; try contradiction;
      rewrite Hv in H; cbn in H; lia.
  - subst decoded. cbn [List.length] in Hq.
    assert (0 <= (len s' + 7) / 8) as Hdiv by (apply Z.div_pos; lia).
    assert (Z.to_nat ((len s' + 7) / 8) = 0%nat) as Hn0 by lia.
    assert ((len s' + 7) / 8 = 0) as Hz by lia.
    assert (len s' = 0) as Hz'.
    { destruct (Z.eq_dec (len s') 0) as [|Hnz]; [assumption|].
      assert (1 <= (len s' + 7) / 8) by (apply Z.div_le_lower_bound; lia). lia. }
    rewrite Hz', Hu in Hv. unfold Base32.valid_padchars in Hv.
    rewrite !orb_true_iff, !Z.eqb_eq in Hv.
    assert (len p = 0) as Hl.
    { destruct Hv as [[[[Hv | Hv] | Hv] | Hv] | Hv]; try lia;
        rewrite Z.sub_0_r in Hv; rewrite Hv in Hm; discriminate Hm. }
    unfold len in Hl. destruct p; [reflexivity | cbn in Hl; lia].
Qed.

Lemma forall_space_normalize (raw : string) :
  forall_string Spec.is_space_char raw = true <-> TOTPManager.normalize raw = "".
Proof.
  induction raw as [| c raw IH]; [cbn; tauto|].
  rewrite normalize_cons. cbn [forall_string].
  destruct (Spec.is_space_char c); cbn [andb]; [exact IH|].
  split; discriminate.
Qed.

(** The key decoded from a normalized secret is empty only when the raw
    secret consists of spaces alone (the empty string included): every
    other secret that passes the validation of [add_secret] and
    [update_secret] yields at least one key byte. *)
Theorem empty_key_iff_blank (raw : string) :
  Pyotp.byte_secret (TOTPManager.normalize raw) = Ok []
  <-> forall_string Spec.is_space_char raw = true.
Proof.
  rewrite forall_space_normalize. split.
  - unfold Pyotp.byte_secret. intros H. apply b32decode_empty in H.
    destruct (negb _); [|exact H].
    destruct (TOTPManager.normalize raw); [reflexivity | discriminate H].
  - intros ->. reflexivity.
Qed.

Lemma upper_char_idempotent (c : ascii) : upper_char (upper_char c) = upper_char c.
Proof.
  unfold upper_char at 1. destruct (is_lower (upper_char c)) eqn:E; [|reflexivity].
  exfalso. apply is_lower_iff in E. rewrite ord_upper_char in E.
  destruct (is_lower c) eqn:F; [apply is_lower_iff in F; lia|].
  assert (is_lower c = true) by (apply is_lower_iff; exact E). congruence.
Qed.

Lemma upper_idempotent (s : string) : upper (upper s) = upper s.
Proof.
  unfold upper. induction s as [| c s IH]; [reflexivity|].
  cbn. rewrite upper_char_idempotent, IH. reflexivity.
Qed.

Lemma upper_ascii (s : string) :
  forall_string Base32.is_ascii_char (upper s) = forall_string Base32.is_ascii_char s.
Proof.
  unfold upper. induction s as [| c s IH]; [reflexivity|].
  cbn [map_string forall_string]. rewrite IH. f_equal.
  unfold Base32.is_ascii_char. rewrite ord_upper_char.
  destruct (is_lower c) eqn:E; [|reflexivity].
  apply is_lower_iff in E.
  destruct (Z.ltb_spec (ord c - 32) 128), (Z.ltb_spec (ord c) 128); try reflexivity; lia.
Qed.

Lemma upper_app_pad (s : string) (n : nat) :
  upper (s ++ repeat_char "=" n) = (upper s ++ repeat_char "=" n)%string.
Proof.
  unfold upper. induction s as [| c s IH].
  - cbn. induction n as [| n IHn]; [reflexivity|]. cbn. rewrite IHn. reflexivity.
  - cbn. rewrite IH. reflexivity.
Qed.

Lemma b32decode_upper (p : string) : Base32.b32decode (upper p) = Base32.b32decode p.
Proof.
  unfold Base32.b32decode.
  assert (len (upper p) = len p) as Hu
    by (unfold len, upper; rewrite map_string_length; reflexivity).
  rewrite upper_ascii, upper_idempotent, Hu. reflexivity.
Qed.

Lemma byte_secret_upper (s : string) :
  Pyotp.byte_secret (upper s) = Pyotp.byte_secret s.
Proof.
  unfold Pyotp.byte_secret.
  assert (len (upper s) = len s) as Hu
    by (unfold len, upper; rewrite map_string_length; reflexivity).
  rewrite Hu. destruct (negb _); [|apply b32decode_upper].
  rewrite <- upper_app_pad. apply b32decode_upper.
Qed.

(** With the clock at or after the epoch, [get_totp] returns a code exactly
    when the secret decodes, and otherwise raises the decoding error
    itself; and the result does not depend on the letter case of the
    secret. *)
Theorem get_totp_decoding (secret : string) (clock : Z) :
  0 <= clock ->
  ((exists code, TOTPManager.get_totp secret clock = Ok code)
     <-> exists key, Pyotp.byte_secret secret = Ok key)
  /\ (forall e, Pyotp.byte_secret secret = Raise e ->
        TOTPManager.get_totp secret clock = Raise e)
  /\ TOTPManager.get_totp (upper secret) clock = TOTPManager.get_totp secret clock.
Proof.
  intros Hc. split; [|split].
  - split.
    + intros [code H]. eapply now_ok_decodes. exact H.
    + intros [key H]. eexists. apply (get_totp_ok secret key clock H Hc).
  - intros e H. apply now_raises; assumption.
  - unfold TOTPManager.get_totp, Pyotp.now, Pyotp.generate_otp.
    rewrite byte_secret_upper. reflexivity.
Qed.

Lemma get_totp_decoding_witness :
  ((exists code, TOTPManager.get_totp "jbswy3dp" 59 = Ok code)
     <-> exists key, Pyotp.byte_secret "jbswy3dp" = Ok key)
  /\ (forall e, Pyotp.byte_secret "jbswy3dp" = Raise e ->
        TOTPManager.get_totp "jbswy3dp" 59 = Raise e)
  /\ TOTPManager.get_totp (upper "jbswy3dp") 59 = TOTPManager.get_totp "jbswy3dp" 59.
Proof.
  apply (get_totp_decoding "jbswy3dp" 59). lia.
Defined.

